(** * Watermark excision in [scripts/remove_watermark.py]

    A shallow embedding of the content-stream editing code of
    [remove_watermark_pymupdf] and [process_form_xobject], and the
    properties of it that the specification states.

    Python [str] values are sequences of code points ([list N]), [bytes]
    values are [list byte].  The regular expressions the script hands to
    [re.sub] and [re.findall] are embedded as the deterministic matchers
    they denote; none of them can match the empty string. *)

From Stdlib Require Import NArith Ascii String Strings.Byte Bool Lia.
From stdpp Require Import base tactics option list.

Local Open Scope N_scope.

(** ** Python values *)

Abbreviation text := (list N).
Abbreviation bytes := (list byte).

(** A string literal of the development as a Python [str] and as [bytes]. *)
Definition T (s : string) : text := map N_of_ascii (list_ascii_of_string s).
Definition B (s : string) : bytes := list_byte_of_string s.

(** The part of the Python run time that depends on the Unicode database:
    [str.lower] on a string that is not pure ASCII, and the classes [\s]
    and [\w] of [re] above code point 127. *)
Record Unicode := {
  lower_unicode : text -> text;
  space_unicode : N -> bool;
  word_unicode : N -> bool
}.

(** Tables that leave everything above 127 alone; every string of the
    examples below is ASCII, where the tables are not consulted. *)
Definition ascii_only : Unicode :=
  {| lower_unicode := fun s => s;
     space_unicode := fun _ => false;
     word_unicode := fun _ => false |}.

Definition LPAREN : N := 40.     (* ( *)
Definition RPAREN : N := 41.     (* ) *)
Definition LBRACKET : N := 91.   (* [ *)
Definition RBRACKET : N := 93.   (* ] *)
Definition BACKSLASH : N := 92.
Definition LT : N := 60.         (* < *)
Definition GT : N := 62.         (* > *)
Definition SPACE : N := 32.

Definition is_ascii (c : N) : bool := c <? 128.

Definition ascii_lower (c : N) : N :=
  if (65 <=? c) && (c <=? 90) then c + 32 else c.

(** [\s] below 128: tab, LF, VT, FF, CR, the separators FS GS RS US, space. *)
Definition ascii_space (c : N) : bool :=
  ((9 <=? c) && (c <=? 13)) || ((28 <=? c) && (c <=? 31)) || (c =? 32).

(** [\w] below 128: letters, digits, underscore. *)
Definition ascii_word (c : N) : bool :=
  ((48 <=? c) && (c <=? 57)) || ((65 <=? c) && (c <=? 90))
  || ((97 <=? c) && (c <=? 122)) || (c =? 95).

(** [[0-9A-Fa-f]] *)
Definition is_hexdigit (c : N) : bool :=
  ((48 <=? c) && (c <=? 57)) || ((65 <=? c) && (c <=? 70))
  || ((97 <=? c) && (c <=? 102)).

Definition hex_value (c : N) : N :=
  if c <=? 57 then c - 48 else if c <=? 70 then c - 55 else c - 87.

Section Python.
Context (U : Unicode).

(** [s.lower()] *)
Definition lower (s : text) : text :=
  if forallb is_ascii s then map ascii_lower s else lower_unicode U s.

Definition is_space (c : N) : bool :=
  if is_ascii c then ascii_space c else space_unicode U c.

Definition is_word (c : N) : bool :=
  if is_ascii c then ascii_word c else word_unicode U c.

End Python.

(** [s.startswith(p)] *)
Fixpoint starts_with (p s : text) : bool :=
  match p, s with
  | [], _ => true
  | _ :: _, [] => false
  | a :: p', b :: s' => (a =? b) && starts_with p' s'
  end.

(** [needle in hay] *)
Fixpoint contains (needle hay : text) : bool :=
  starts_with needle hay ||
  match hay with
  | [] => false
  | _ :: hay' => contains needle hay'
  end.

(** [s.replace(old, new)] for a non-empty [old]: occurrences are replaced
    from left to right without overlap; [skip] counts the characters of an
    occurrence that are still to be passed over. *)
Fixpoint replace_from (old new : text) (skip : nat) (s : text) : text :=
  match s with
  | [] => []
  | c :: s' =>
      match skip with
      | S k => replace_from old new k s'
      | O =>
          if starts_with old s
          then new ++ replace_from old new (Nat.pred (length old)) s'
          else c :: replace_from old new 0 s'
      end
  end.

Definition str_replace (old new s : text) : text := replace_from old new 0 s.

(** [' '.join(parts)] *)
Fixpoint join_space (parts : list text) : text :=
  match parts with
  | [] => []
  | [p] => p
  | p :: rest => p ++ SPACE :: join_space rest
  end.

(** [any(wm_lower in hay for wm_lower in watermark_lowers)] *)
Definition any_in (watermark_lowers : list text) (hay : text) : bool :=
  existsb (fun wm_lower => contains wm_lower hay) watermark_lowers.

(** ** Codecs *)

Definition is_continuation (c : N) : bool := (128 <=? c) && (c <=? 191).

(** [b.decode('utf-8', errors='ignore')]: CPython's decoder.  An invalid
    start byte is dropped alone; at an invalid continuation byte the bytes
    of the sequence read so far are dropped and decoding resumes at the
    offending byte; a sequence cut off by the end of the data is dropped. *)
Fixpoint utf8_decode_ignore (bs : bytes) : text :=
  match bs with
  | [] => []
  | b0 :: t1 =>
    let c0 := Byte.to_N b0 in
    if c0 <? 128 then c0 :: utf8_decode_ignore t1
    else if c0 <? 194 then utf8_decode_ignore t1
    else if c0 <? 224 then
      match t1 with
      | [] => []
      | b1 :: t2 =>
        let c1 := Byte.to_N b1 in
        if is_continuation c1
        then ((c0 - 192) * 64 + (c1 - 128)) :: utf8_decode_ignore t2
        else utf8_decode_ignore t1
      end
    else if c0 <? 240 then
      match t1 with
      | [] => []
      | b1 :: t2 =>
        let c1 := Byte.to_N b1 in
        if is_continuation c1
           && negb ((c0 =? 224) && (c1 <? 160))
           && negb ((c0 =? 237) && (160 <=? c1))
        then
          match t2 with
          | [] => []
          | b2 :: t3 =>
            let c2 := Byte.to_N b2 in
            if is_continuation c2
            then ((c0 - 224) * 4096 + (c1 - 128) * 64 + (c2 - 128))
                 :: utf8_decode_ignore t3
            else utf8_decode_ignore t2
          end
        else utf8_decode_ignore t1
      end
    else if c0 <? 245 then
      match t1 with
      | [] => []
      | b1 :: t2 =>
        let c1 := Byte.to_N b1 in
        if is_continuation c1
           && negb ((c0 =? 240) && (c1 <? 144))
           && negb ((c0 =? 244) && (144 <=? c1))
        then
          match t2 with
          | [] => []
          | b2 :: t3 =>
            let c2 := Byte.to_N b2 in
            if is_continuation c2 then
              match t3 with
              | [] => []
              | b3 :: t4 =>
                let c3 := Byte.to_N b3 in
                if is_continuation c3
                then ((c0 - 240) * 262144 + (c1 - 128) * 4096
                      + (c2 - 128) * 64 + (c3 - 128))
                     :: utf8_decode_ignore t4
                else utf8_decode_ignore t3
              end
            else utf8_decode_ignore t2
          end
        else utf8_decode_ignore t1
      end
    else utf8_decode_ignore t1
  end.

(** [b.decode('latin-1', errors='ignore')] *)
Definition latin1_decode (bs : bytes) : text := map Byte.to_N bs.

(** [s.encode('latin-1', errors='ignore')]: code points above 255 are dropped. *)
Definition latin1_encode_ignore (s : text) : bytes := omap Byte.of_N s.

(** [bytes.fromhex(h)] for a run of hex digits of even length. *)
Fixpoint fromhex (h : text) : bytes :=
  match h with
  | hi :: lo :: h' =>
      match Byte.of_N (hex_value hi * 16 + hex_value lo) with
      | Some b => b :: fromhex h'
      | None => fromhex h'
      end
  | _ => []
  end.

(** ** [extract_all_text_from_stream]

    The function is defined twice in the script, once inside
    [process_form_xobject] and once inside [remove_watermark_pymupdf];
    the two bodies are the same. *)

(** [esc_char in '()nrtbf'] *)
Definition in_escapes (c : N) : bool := existsb (N.eqb c) (T "()nrtbf").

(** The inner [while j < len(stream)] loop, started at [j = i + 1] on
    [s = stream[j:]].  [Some (content, n)]: the loop left through [break]
    with [content] collected and [n] characters read, the closing
    parenthesis included, so that [i = j + 1] is [n] characters after the
    opening one.  [None]: the loop ran off the end of the stream and the
    [else] clause of the [while] was taken. *)
Fixpoint literal_body (s : text) : option (text * nat) :=
  match s with
  | [] => None
  | c :: s1 =>
      if c =? BACKSLASH then
        match s1 with
        | esc_char :: s2 =>
            match literal_body s2 with
            | Some (content, n) =>
                Some ((if in_escapes esc_char then [esc_char] else []) ++ content,
                      S (S n))
            | None => None
            end
        | [] => None
        end
      else if c =? RPAREN then Some ([], 1%nat)
      else
        match literal_body s1 with
        | Some (content, n) => Some (c :: content, S n)
        | None => None
        end
  end.

(** The outer [while i < len(stream)] loop; [skip] is the distance from the
    cursor of the model to [i]. *)
Fixpoint literal_strings_from (skip : nat) (s : text) : list text :=
  match s with
  | [] => []
  | c :: s1 =>
      match skip with
      | S k => literal_strings_from k s1
      | O =>
          if c =? LPAREN then
            match literal_body s1 with
            | Some (content, n) => content :: literal_strings_from n s1
            | None => literal_strings_from 0 s1
            end
          else literal_strings_from 0 s1
      end
  end.

Definition literal_strings (stream : text) : list text :=
  literal_strings_from 0 stream.

(** The longest prefix of [s] whose characters satisfy [p], and its length. *)
Fixpoint run (p : N -> bool) (s : text) : text :=
  match s with
  | c :: s' => if p c then c :: run p s' else []
  | [] => []
  end.

(** [re.findall(r'<([0-9A-Fa-f]+)>', stream)]: at a [<] the longest run of
    hex digits is taken; it must not be empty and a [>] must follow it. *)
Definition match_hex (s : text) : option text :=
  match s with
  | c :: s1 =>
      if c =? LT then
        let h := run is_hexdigit s1 in
        match h, drop (length h) s1 with
        | _ :: _, d :: _ => if d =? GT then Some h else None
        | _, _ => None
        end
      else None
  | [] => None
  end.

Fixpoint hex_matches_from (skip : nat) (s : text) : list text :=
  match s with
  | [] => []
  | _ :: s1 =>
      match skip with
      | S k => hex_matches_from k s1
      | O =>
          match match_hex s with
          | Some h => h :: hex_matches_from (S (length h)) s1
          | None => hex_matches_from 0 s1
          end
      end
  end.

Definition hex_matches (stream : text) : list text := hex_matches_from 0 stream.

(** The body of [for hex_str in hex_matches]: a run of odd length is passed
    over by [if len(hex_str) % 2 == 0]. *)
Definition hex_texts (stream : text) : list text :=
  omap (fun hex_str =>
          if Nat.even (length hex_str)
          then Some (utf8_decode_ignore (fromhex hex_str))
          else None)
       (hex_matches stream).

Definition all_text (stream : text) : list text :=
  literal_strings stream ++ hex_texts stream.

Definition extract_all_text_from_stream (U : Unicode) (stream : text) : text :=
  lower U (join_space (all_text stream)).

(** ** The patterns of the rewriting passes

    A matcher is given the rest of the stream from a candidate start
    position and answers with group 1 and the length of the whole match.
    No pattern begins with an assertion, so the answer depends on the rest
    of the stream only. *)

Definition matcher := text -> option (text * nat).

(** The offset of the first occurrence of [p] in [s]. *)
Fixpoint find_sub (p s : text) : option nat :=
  if starts_with p s then Some 0%nat
  else
    match s with
    | [] => None
    | _ :: s' => S <$> find_sub p s'
    end.

(** [r'BT(.*?)ET'] with [re.DOTALL]: the lazy group ends at the first [ET]
    after the opening [BT]. *)
Definition match_text_object : matcher := fun s =>
  if starts_with (T "BT") s then
    match find_sub (T "ET") (drop 2 s) with
    | Some k => Some (take k (drop 2 s), (2 + k + 2)%nat)
    | None => None
    end
  else None.

Section Patterns.
Context (U : Unicode).

(** [\b] between [prev] and the next character, if there is one. *)
Definition word_boundary (prev : N) (next : option N) : bool :=
  xorb (is_word U prev)
       (match next with Some c => is_word U c | None => false end).

(** [open ([^close]* ) close \s+ operator \b], the shape of the four operand
    patterns.  The negated class runs to the first [close]; [\s+] takes the
    whole run of white space, since no operator begins with white space. *)
Definition match_operand (open close : N) (operator : text) : matcher := fun s =>
  match s with
  | c :: s1 =>
      if c =? open then
        let group := run (fun x => negb (x =? close)) s1 in
        match drop (length group) s1 with
        | _ :: s2 =>
            let ws := length (run (is_space U) s2) in
            let s3 := drop ws s2 in
            if (0 <? ws)%nat && starts_with operator s3
               && word_boundary (List.last operator 0)
                                (head (drop (length operator) s3))
            then Some (group, (1 + length group + 1 + ws + length operator)%nat)
            else None
        | [] => None
        end
      else None
  | [] => None
  end.

(** The pattern of [(text) Tj]: [\( ( [^)]* ) \) \s+ Tj \b]. *)
Definition match_Tj : matcher := match_operand LPAREN RPAREN (T "Tj").
(** The pattern of [[array] TJ]: [\[ ( [^\]]* ) \] \s+ TJ \b]. *)
Definition match_TJ : matcher := match_operand LBRACKET RBRACKET (T "TJ").
(** The pattern of [(text) '], the first with an apostrophe for [Tj]. *)
Definition match_quote : matcher := match_operand LPAREN RPAREN (T "'").
(** The same with a double quote (code point 34) as the operator. *)
Definition match_dquote : matcher := match_operand LPAREN RPAREN [34].

End Patterns.

(** [re.sub(pattern, lambda m: '' if remove(m) else m.group(0), s)]:
    matches are looked for from left to right and do not overlap; a match
    that is kept is copied as it stands.  [skip] is the number of characters
    of the current match still ahead and [keep] says whether they are
    copied. *)
Fixpoint re_sub_from (m : matcher) (remove : text -> bool)
    (skip : nat) (keep : bool) (s : text) : text :=
  match s with
  | [] => []
  | c :: s' =>
      match skip with
      | S k => (if keep then [c] else []) ++ re_sub_from m remove k keep s'
      | O =>
          match m s with
          | Some (group, S k) =>
              let keep' := negb (remove group) in
              (if keep' then [c] else []) ++ re_sub_from m remove k keep' s'
          | _ => c :: re_sub_from m remove 0 true s'
          end
      end
  end.

Definition re_sub (m : matcher) (remove : text -> bool) (s : text) : text :=
  re_sub_from m remove 0 true s.

(** The number of characters [re_sub] takes out. *)
Fixpoint deleted_from (m : matcher) (remove : text -> bool)
    (skip : nat) (keep : bool) (s : text) : nat :=
  match s with
  | [] => 0%nat
  | c :: s' =>
      match skip with
      | S k => ((if keep then 0 else 1) + deleted_from m remove k keep s')%nat
      | O =>
          match m s with
          | Some (group, S k) =>
              let keep' := negb (remove group) in
              ((if keep' then 0 else 1) + deleted_from m remove k keep' s')%nat
          | _ => deleted_from m remove 0 true s'
          end
      end
  end.

Definition deleted (m : matcher) (remove : text -> bool) (s : text) : nat :=
  deleted_from m remove 0 true s.

(** ** The rewriting passes *)

Section Rewriter.
Context (U : Unicode) (watermark_lowers : list text).

Definition should_remove_text_object (block : text) : bool :=
  any_in watermark_lowers (extract_all_text_from_stream U block).

(** The three [replace] calls; in the source the first arguments are the
    Python literals ['\\\\('], ['\\\\)'] and ['\\\\']: two backslashes
    followed by a parenthesis, and two backslashes. *)
Definition should_remove_inline (text_str : text) : bool :=
  let text_str := str_replace [BACKSLASH; BACKSLASH; LPAREN] [LPAREN] text_str in
  let text_str := str_replace [BACKSLASH; BACKSLASH; RPAREN] [RPAREN] text_str in
  let text_str := str_replace [BACKSLASH; BACKSLASH] [BACKSLASH] text_str in
  any_in watermark_lowers (lower U text_str).

Definition should_remove_tj_array (array_content : text) : bool :=
  any_in watermark_lowers (extract_all_text_from_stream U array_content).

(** The five [re.sub] calls, in the order of the source. *)
Definition passes : list (matcher * (text -> bool)) :=
  [ (match_text_object, should_remove_text_object);
    (match_Tj U, should_remove_inline);
    (match_TJ U, should_remove_tj_array);
    (match_quote U, should_remove_inline);
    (match_dquote U, should_remove_inline) ].

Definition apply_passes (ps : list (matcher * (text -> bool))) (s : text) : text :=
  foldl (fun acc p => re_sub p.1 p.2 acc) s ps.

(** [new_stream_text] (and [new_xobj_stream]) after the five passes. *)
Definition rewrite_stream (stream_text : text) : text :=
  apply_passes passes stream_text.

(** The characters the passes take out, pass by pass. *)
Fixpoint deleted_by (ps : list (matcher * (text -> bool))) (s : text) : nat :=
  match ps with
  | [] => 0%nat
  | p :: ps' => (deleted p.1 p.2 s + deleted_by ps' (re_sub p.1 p.2 s))%nat
  end.

Definition deleted_total (stream_text : text) : nat := deleted_by passes stream_text.

(** From the bytes read out of the document to the bytes handed to
    [doc.update_stream]: decoding, the five passes, the test
    [new_stream_text != original_stream], encoding.  [None]: the text is
    unchanged and nothing is written. *)
Definition edited_stream (stream_bytes : bytes) : option bytes :=
  let stream_text := utf8_decode_ignore stream_bytes in
  let new_stream_text := rewrite_stream stream_text in
  if bool_decide (new_stream_text = stream_text) then None
  else Some (latin1_encode_ignore new_stream_text).

End Rewriter.

(** ** The document

    What the script reads and writes through PyMuPDF: the table of indirect
    objects of the file, indexed by cross-reference number, and the pages
    with their annotations and the numbers of their content streams. *)

Record Annot := {
  annot_content : text;   (* annot.info.get("content", "") *)
  annot_title : text      (* annot.info.get("title", "") *)
}.

Record Obj := {
  obj_type : string;            (* doc.xref_get_key(xref, "Type")[1] *)
  obj_subtype : string;         (* doc.xref_get_key(xref, "Subtype")[1] *)
  obj_stream : option bytes     (* doc.xref_stream(xref) *)
}.

Record Page := {
  page_annots : list Annot;     (* page.annots() *)
  page_contents : list nat      (* page.get_contents() *)
}.

Record Doc := {
  objects : list Obj;           (* entry 0 is the head of the free list *)
  pages : list Page
}.

Definition xref_length (d : Doc) : nat := length (objects d).

Definition xref_stream (d : Doc) (xref : nat) : option bytes :=
  objects d !! xref ≫= obj_stream.

(** [doc.update_stream(xref, data, compress=...)] replaces the decoded
    payload of a stream object and raises for anything else; [compress]
    chooses the stored form only. *)
Definition update_stream (d : Doc) (xref : nat) (data : bytes)
    (compress : option bool) : option Doc :=
  match objects d !! xref with
  | Some o =>
      match obj_stream o with
      | Some _ =>
          Some {| objects := <[xref := {| obj_type := obj_type o;
                                          obj_subtype := obj_subtype o;
                                          obj_stream := Some data |}]> (objects d);
                  pages := pages d |}
      | None => None
      end
  | None => None
  end.

Definition set_annots (d : Doc) (page_num : nat) (l : list Annot) : Doc :=
  {| objects := objects d;
     pages := alter (fun p => {| page_annots := l;
                                 page_contents := page_contents p |})
                    page_num (pages d) |}.

(** The answers of PyMuPDF that come out of its text extraction, its
    content-stream clean-up and its removal of annotations, as functions of
    the document at the time of the call and of the page number.  [None]
    stands for a raised exception where the script handles one. *)
Record Fitz := {
  get_text : Doc -> nat -> text;
  (* len(page.search_for(w, flags=fitz.TEXT_DEHYPHENATE)) *)
  search_for : Doc -> nat -> text -> option nat;
  clean_contents : Doc -> nat -> option Doc;
  read_contents : Doc -> nat -> option bytes;
  (* page.delete_annot(annot): what else goes with the annotation, a
     popup or the replies bound to it, is the library's to say *)
  delete_annot : Doc -> nat -> Annot -> option Doc
}.

(** What a run did to the document, in the order it did it.  The script
    keeps no such record; it is kept here to count the edits. *)
Inductive Event :=
  | DeletedAnnot (page_num : nat) (a : Annot)
  | UpdatedForm (page_num xref : nat) (data : bytes)
  | UpdatedContents (page_num xref : nat) (data : bytes).

Record State := { doc : Doc; log : list Event }.

Definition set_doc (st : State) (d : Doc) : State := {| doc := d; log := log st |}.
Definition emit (st : State) (d : Doc) (e : Event) : State :=
  {| doc := d; log := log st ++ [e] |}.

Section Orchestrator.
Context (U : Unicode) (F : Fitz).
(** [watermark_strings], with [None] read as the empty list. *)
Context (watermark_list : list text).

Definition watermark_lowers : list text := map (lower U) watermark_list.

(** ** [process_form_xobject] *)
Definition process_form_xobject (st : State) (xobj_xref page_num : nat)
    : State * bool :=
  match xref_stream (doc st) xobj_xref with
  | None | Some [] => (st, false)
  | Some xobj_stream_bytes =>
      let xobj_stream_text := utf8_decode_ignore xobj_stream_bytes in
      let has_watermark := any_in watermark_lowers (lower U xobj_stream_text) in
      if negb has_watermark then (st, false)
      else
        match edited_stream U watermark_lowers xobj_stream_bytes with
        | None => (st, false)
        | Some new_stream_bytes =>
            let e := UpdatedForm page_num xobj_xref new_stream_bytes in
            match update_stream (doc st) xobj_xref new_stream_bytes (Some false) with
            | Some d => (emit st d e, true)
            | None =>
                match update_stream (doc st) xobj_xref new_stream_bytes (Some true) with
                | Some d => (emit st d e, true)
                | None => (st, false)
                end
            end
        end
  end.

(** The body of [for xref_num in range(1, doc.xref_length())]. *)
Definition form_step (page_num : nat) (st : State) (xref_num : nat) : State :=
  match objects (doc st) !! xref_num with
  | Some o =>
      if (obj_type o =? "/XObject")%string && (obj_subtype o =? "/Form")%string then
        match obj_stream o with
        | None | Some [] => st
        | Some stream_bytes =>
            let xobj_text := lower U (latin1_decode stream_bytes) in
            if any_in watermark_lowers xobj_text
            then (process_form_xobject st xref_num page_num).1
            else st
        end
      else st
  | None => st
  end.

Definition annot_has_watermark (a : Annot) : bool :=
  existsb (fun wm_lower =>
             contains wm_lower (lower U (annot_content a))
             || contains wm_lower (lower U (annot_title a)))
          watermark_lowers.

(** [annots_to_delete] is filled from [page.annots()] and then emptied
    through [page.delete_annot], one call for each marked annotation; a
    call that raises is passed over. *)
Definition delete_step (page_num : nat) (st : State) (annot : Annot) : State :=
  match delete_annot F (doc st) page_num annot with
  | Some d => emit st d (DeletedAnnot page_num annot)
  | None => st
  end.

Definition delete_annots (st : State) (page_num : nat) : State :=
  match pages (doc st) !! page_num with
  | Some page =>
      let annots_to_delete :=
        List.filter annot_has_watermark (page_annots page) in
      foldl (delete_step page_num) st annots_to_delete
  | None => st
  end.

(** [all_watermark_instances], as the number of rectangles found. *)
Definition count_instances (d : Doc) (page_num : nat) : nat :=
  foldr (fun watermark_text n =>
           (default 0%nat (search_for F d page_num watermark_text) + n)%nat)
        0%nat watermark_list.

(** The three attempts to write the page's stream back. *)
Definition update_contents (d : Doc) (xref : nat) (data : bytes) : option Doc :=
  match update_stream d xref data (Some false) with
  | Some d' => Some d'
  | None =>
      match update_stream d xref data (Some true) with
      | Some d' => Some d'
      | None => update_stream d xref data None
      end
  end.

(** The page gate: [has_watermark] of the page loop. *)
Definition page_has_watermark (d : Doc) (page_num : nat) : bool :=
  any_in watermark_lowers (lower U (get_text F d page_num)).

(** The body of [for page_num in range(len(doc))].  Calls whose result only
    feeds a diagnostic message are left out. *)
Definition process_page (st : State) (page_num : nat) : State :=
  match watermark_list with
  | [] => st
  | _ :: _ =>
  if negb (page_has_watermark (doc st) page_num) then st
  else
    let st := delete_annots st page_num in
    match clean_contents F (doc st) page_num with
    | None => st
    | Some d =>
    let st := set_doc st d in
    if (count_instances (doc st) page_num =? 0)%nat then st
    else
      match read_contents F (doc st) page_num with
      | None | Some [] => st
      | Some stream_bytes =>
        let st := foldl (form_step page_num) st
                        (seq 1 (Nat.pred (xref_length (doc st)))) in
        match edited_stream U watermark_lowers stream_bytes with
        | None => st
        | Some new_stream_bytes =>
            match pages (doc st) !! page_num ≫= (fun p => head (page_contents p)) with
            | None => st
            | Some xref =>
                match update_contents (doc st) xref new_stream_bytes with
                | Some d =>
                    emit st (default d (clean_contents F d page_num))
                         (UpdatedContents page_num xref new_stream_bytes)
                | None => st
                end
            end
        end
      end
    end
  end.

(** [remove_watermark_pymupdf], up to [doc.save]; the verification that
    follows reads the saved file and prints a message. *)
Definition remove_watermark_pymupdf (d : Doc) : State :=
  foldl process_page {| doc := d; log := [] |} (seq 0 (length (pages d))).

End Orchestrator.

(** ** Sample documents

    Stand-ins for PyMuPDF on small documents, made from the numbers of the
    streams that each page draws, its content streams and the form objects
    it names.  The text of a page is made of the literal strings of the
    streams it draws; a string is found on a page when the text of the page
    contains it whatever the case; the content of a page is the
    concatenation of its content streams; an annotation is removed alone.
    The clean-up of a page writes the streams that the page draws anew: of
    what PyMuPDF does to them the stand-in keeps that no white space is
    left between a closing parenthesis or bracket and what follows, so that
    [(x) Tj] becomes [(x)Tj]; a stream that the page does not draw is not
    touched. *)
Fixpoint tidy (after_close : bool) (b : bytes) : bytes :=
  match b with
  | [] => []
  | x :: b' =>
      let c := Byte.to_N x in
      if after_close && ascii_space c then tidy true b'
      else x :: tidy ((c =? RPAREN) || (c =? RBRACKET)) b'
  end.

Definition tidy_obj (o : Obj) : Obj :=
  {| obj_type := obj_type o; obj_subtype := obj_subtype o;
     obj_stream := tidy false <$> obj_stream o |}.

Definition tidy_all (d : Doc) (xrefs : list nat) : Doc :=
  {| objects := foldr (alter tidy_obj) (objects d) xrefs; pages := pages d |}.

Definition drawn_text (d : Doc) (xrefs : list nat) : text :=
  join_space
    (concat (map (fun xref => match xref_stream d xref with
                              | Some b => literal_strings (latin1_decode b)
                              | None => []
                              end)
                 xrefs)).

Definition page_stream (d : Doc) (page_num : nat) : option bytes :=
  (fun p => concat (omap (xref_stream d) (page_contents p))) <$> pages d !! page_num.

Definition same_annot (a b : Annot) : bool :=
  bool_decide (annot_content a = annot_content b)
  && bool_decide (annot_title a = annot_title b).

Definition without_annot (d : Doc) (page_num : nat) (a : Annot) : Doc :=
  match pages d !! page_num with
  | Some page =>
      set_annots d page_num
        (List.filter (fun b => negb (same_annot a b)) (page_annots page))
  | None => d
  end.

Definition stand_in (U : Unicode) (drawn : Doc -> nat -> list nat) : Fitz :=
  {| get_text := fun d page_num => drawn_text d (drawn d page_num);
     search_for := fun d page_num w =>
       Some (if contains (lower U w) (lower U (drawn_text d (drawn d page_num)))
             then 1 else 0)%nat;
     clean_contents := fun d page_num => Some (tidy_all d (drawn d page_num));
     read_contents := page_stream;
     delete_annot := fun d page_num a => Some (without_annot d page_num a) |}.

(** Every page draws every stream of the file. *)
Definition plain_fitz (U : Unicode) : Fitz :=
  stand_in U (fun d _ => seq 0 (length (objects d))).

(** The pages draw the streams that a table gives for them. *)
Definition drawing (table : list (list nat)) : Doc -> nat -> list nat :=
  fun _ page_num => default [] (table !! page_num).

Definition free_head : Obj :=
  {| obj_type := ""; obj_subtype := ""; obj_stream := None |}.
Definition content_obj (b : bytes) : Obj :=
  {| obj_type := ""; obj_subtype := ""; obj_stream := Some b |}.
Definition form_obj (b : bytes) : Obj :=
  {| obj_type := "/XObject"; obj_subtype := "/Form"; obj_stream := Some b |}.

(** One page whose content stream is object 1. *)
Definition one_page_doc (content : bytes) : Doc :=
  {| objects := [free_head; content_obj content];
     pages := [ {| page_annots := []; page_contents := [1%nat] |} ] |}.

(** Two pages, with content streams 1 and 2, that both draw form object 3. *)
Definition shared_form_doc (form : bytes) : Doc :=
  {| objects := [free_head; content_obj (B "q /Fm0 Do Q");
                 content_obj (B "q /Fm0 Do Q"); form_obj form];
     pages := [ {| page_annots := []; page_contents := [1%nat] |};
                {| page_annots := []; page_contents := [2%nat] |} ] |}.



(** A text object that the passes leave: the lazy group of the first pass
    ends at the [ET] of [SECRET], in front of which no string is complete,
    and no white space stands between the string and its operator. *)
Definition stuck_stream : bytes :=
  B "BT /F1 12 Tf 72 720 Td (SECRET DRAFT)Tj ET".

(** A form whose first string holds [ET] and is followed by white space,
    and whose second string is not. *)
Definition two_edits_form : bytes :=
  B "q BT /F1 12 Tf (SECRET DRAFT) Tj (DRAFT)Tj ET Q".

(** Four pages with content streams 1 to 4.  Pages 2 and 3 name form
    object 5 in their resources and draw it; pages 0 and 1 do not name
    it and show a text of their own. *)
Definition unreached_form_doc : Doc :=
  {| objects := [free_head; content_obj stuck_stream; content_obj stuck_stream;
                 content_obj (B "q /Fm0 Do Q"); content_obj (B "q /Fm0 Do Q");
                 form_obj two_edits_form];
     pages := [ {| page_annots := []; page_contents := [1%nat] |};
                {| page_annots := []; page_contents := [2%nat] |};
                {| page_annots := []; page_contents := [3%nat] |};
                {| page_annots := []; page_contents := [4%nat] |} ] |}.

Definition unreached_form_fitz (U : Unicode) : Fitz :=
  stand_in U (drawing [[1]; [2]; [3; 5]; [4; 5]]%nat).

(** Two pages with content streams 1 and 2.  Page 1 names form object 3
    in its resources and does not draw it; page 0 does not name it. *)
Definition kept_form_doc : Doc :=
  {| objects := [free_head; content_obj stuck_stream;
                 content_obj (B "BT /F1 12 Tf 72 720 Td (Hello)Tj ET");
                 form_obj two_edits_form];
     pages := [ {| page_annots := []; page_contents := [1%nat] |};
                {| page_annots := []; page_contents := [2%nat] |} ] |}.

Definition kept_form_fitz (U : Unicode) : Fitz :=
  stand_in U (drawing [[1]; [2]]%nat).

(** A text object whose first string holds [ET]: the lazy group of the
    first pass ends inside it. *)
Definition two_runs_stream : bytes :=
  B "BT /F1 12 Tf (SECRET DRAFT) Tj (DRAFT)Tj ET".

(** The updates of form object [xref] in a log, and those made while
    page [page_num] was processed. *)
Definition is_form_update (xref : nat) (e : Event) : bool :=
  match e with
  | UpdatedForm _ x _ => (x =? xref)%nat
  | _ => false
  end.

Definition is_form_update_on (page_num xref : nat) (e : Event) : bool :=
  match e with
  | UpdatedForm p x _ => (p =? page_num)%nat && (x =? xref)%nat
  | _ => false
  end.

Definition form_updates (xref : nat) (l : list Event) : nat :=
  length (List.filter (is_form_update xref) l).

Definition form_updates_on (page_num xref : nat) (l : list Event) : nat :=
  length (List.filter (is_form_update_on page_num xref) l).

(** The updates of any stream in a log: the count of edits of a run. *)
Definition is_stream_update (e : Event) : bool :=
  match e with
  | DeletedAnnot _ _ => false
  | _ => true
  end.

Definition edited_count (l : list Event) : nat :=
  length (List.filter is_stream_update l).

(** ** [detect_watermark_text]

    The answer of [page.get_text("dict")]: the blocks of the page; a block
    has lines or none (an image block has no key ["lines"]); a line is the
    texts of its spans. *)
Abbreviation TextLine := (list text).
Abbreviation TextBlock := (option (list TextLine)).
Abbreviation TextDict := (list TextBlock).

(** [s.strip()] *)
Fixpoint lstrip (space : N -> bool) (s : text) : text :=
  match s with
  | c :: s' => if space c then lstrip space s' else s
  | [] => []
  end.

Definition strip (U : Unicode) (s : text) : text :=
  rev (lstrip (is_space U) (rev (lstrip (is_space U) s))).

(** [d[k] = d.get(k, 0) + 1] on a dictionary kept in the order in which
    its keys were first inserted. *)
Fixpoint bump (k : text) (d : list (text * nat)) : list (text * nat) :=
  match d with
  | [] => [(k, 1%nat)]
  | (k', n) :: d' =>
      if bool_decide (k' = k) then (k', S n) :: d' else (k', n) :: bump k d'
  end.

(** [max(d.items(), key=lambda x: x[1])]: the first item whose count is
    not exceeded by a later one. *)
Definition max_item (d : list (text * nat)) : option (text * nat) :=
  match d with
  | [] => None
  | x :: d' => Some (foldl (fun best y => if (best.2 <? y.2)%nat then y else best) x d')
  end.

(** The test [if len(line_text) > 3] and the counting under it. *)
Definition count_line (d : list (text * nat)) (line_text : text) : list (text * nat) :=
  if (3 <? length line_text)%nat then bump line_text d else d.

(** The values of [line_text] in the order of the loops over the blocks
    and lines of a page. *)
Definition dict_lines (U : Unicode) (text_dict : TextDict) : list text :=
  concat (map (fun block =>
                 match block with
                 | Some lines => map (fun spans => strip U (concat spans)) lines
                 | None => []
                 end)
              text_dict).

(** [s.split('\n')] *)
Fixpoint split_lines (s : text) : list text :=
  match s with
  | [] => [[]]
  | c :: s' =>
      if c =? 10 then [] :: split_lines s'
      else
        match split_lines s' with
        | l :: ls => (c :: l) :: ls
        | [] => [[c]]
        end
  end.

(** The stripped lines of [page.extract_text()], which may be [None] or
    empty. *)
Definition plumber_lines (U : Unicode) (page_text : option text) : list text :=
  match page_text with
  | None | Some [] => []
  | Some t => map (strip U) (split_lines t)
  end.

(** The end of both branches: the most frequent line is the watermark when
    [most_common[1] >= pages_to_check * 0.7].  The product is a float; it is
    never above the exact product, the double next to 0.7 lying below it,
    and differs from it by far less than 1/10, so that for a count, an
    integer, the test is [7 * pages_to_check <= 10 * count]. *)
Definition most_common_line (pages_to_check : nat) (text_frequency : list (text * nat))
    : option text :=
  match max_item text_frequency with
  | Some most_common =>
      if (7 * pages_to_check <=? 10 * most_common.2)%nat
      then Some most_common.1 else None
  | None => None
  end.

(** The branch taken when PyMuPDF is there; [doc] is given by the
    dictionaries of its pages. *)
Definition detect_watermark_text (U : Unicode) (sample_pages : nat)
    (doc : list TextDict) : option text :=
  match doc with
  | [] => None
  | _ :: _ =>
      let pages_to_check := Nat.min sample_pages (length doc) in
      let text_frequency :=
        foldl (fun d page => foldl count_line d (dict_lines U page))
              [] (take pages_to_check doc) in
      most_common_line pages_to_check text_frequency
  end.

(** The branch taken without PyMuPDF; [pdf] is given by the texts of its
    pages. *)
Definition detect_watermark_text_pdfplumber (U : Unicode) (sample_pages : nat)
    (pdf : list (option text)) : option text :=
  match pdf with
  | [] => None
  | _ :: _ =>
      let pages_to_check := Nat.min sample_pages (length pdf) in
      let common_patterns :=
        foldl (fun d page => foldl count_line d (plumber_lines U page))
              [] (take pages_to_check pdf) in
      most_common_line pages_to_check common_patterns
  end.

(** ** [remove_watermark_pypdf]

    Of a page the function reads and writes the entry [/Annots] only:
    [None] when the page has no such key.  The page itself goes to
    [writer.add_page] as it is. *)
Definition pypdf_kept (U : Unicode) (watermark_list : list text)
    (annots : list Annot) : list Annot :=
  List.filter (fun annot =>
                 negb (match watermark_list with
                       | [] => false
                       | _ :: _ => annot_has_watermark U watermark_list annot
                       end))
              annots.

(** The outer [None] is the exception of [page["/Annots"] = new_annots]:
    pypdf takes for the key and the value of a page entry objects of its
    own only, and raises [ValueError] for the string and the list that the
    function hands over.  [del page["/Annots"]] goes through. *)
Definition pypdf_page (U : Unicode) (watermark_list : list text)
    (annots : option (list Annot)) : option (option (list Annot)) :=
  match annots with
  | None => Some None
  | Some [] => Some (Some [])
  | Some annots =>
      match pypdf_kept U watermark_list annots with
      | [] => Some None
      | _ :: _ => None
      end
  end.

(** The pages handed to the writer, in their order, when the function
    returns [True]; [None] when it returns [False]: the exception of a
    page ends the loop, and the handler of the function returns before
    anything is written. *)
Fixpoint remove_watermark_pypdf (U : Unicode) (watermark_list : list text)
    (reader_pages : list (option (list Annot)))
    : option (list (option (list Annot))) :=
  match reader_pages with
  | [] => Some []
  | annots :: reader_pages' =>
      match pypdf_page U watermark_list annots with
      | Some page =>
          match remove_watermark_pypdf U watermark_list reader_pages' with
          | Some written => Some (page :: written)
          | None => None
          end
      | None => None
      end
  end.

(** ** [main]

    The needles handed on: the strings of [--remove-string] when there are
    any, else the detected line when there is one, else none. *)
Definition main_watermark_strings (remove_string : option (list text))
    (detected_watermark : option text) : list text :=
  match remove_string with
  | Some (w :: ws) => w :: ws
  | _ =>
      match detected_watermark with
      | Some (c :: t) => [c :: t]
      | _ => []
      end
  end.

(** The run of [main] with PyMuPDF: detection reads the file on its own,
    with the default of three sample pages, before the removal opens it. *)
Definition main_pymupdf (U : Unicode) (F : Fitz) (remove_string : option (list text))
    (dicts : list TextDict) (d : Doc) : State :=
  let detected_watermark :=
    match remove_string with
    | Some (_ :: _) => None
    | _ => detect_watermark_text U 3 dicts
    end in
  remove_watermark_pymupdf U F
    (main_watermark_strings remove_string detected_watermark) d.

(** ** The vocabulary of the statements *)

(** A stream of ASCII bytes. *)
Definition ascii_bytes (b : bytes) : Prop := Forall (fun x => Byte.to_N x < 128) b.

(** A character that the inner loop copies: neither a backslash nor a
    closing parenthesis. *)
Definition copied (c : N) : Prop := c <> BACKSLASH /\ c <> RPAREN.

(** What the scanner reads between the parentheses of a literal string,
    piece by piece: a character that it copies, or a backslash together
    with the character behind it, of which it keeps the second when it is
    one of [()nrtbf]. *)
Inductive Piece :=
  | Copied (c : N)
  | Escaped (esc_char : N).

Definition piece_source (p : Piece) : text :=
  match p with
  | Copied c => [c]
  | Escaped esc_char => [BACKSLASH; esc_char]
  end.

Definition piece_content (p : Piece) : text :=
  match p with
  | Copied c => [c]
  | Escaped esc_char => if in_escapes esc_char then [esc_char] else []
  end.

Definition piece_ok (p : Piece) : Prop :=
  match p with
  | Copied c => copied c
  | Escaped _ => True
  end.

Definition pieces_source (pieces : list Piece) : text :=
  concat (map piece_source pieces).

Definition pieces_content (pieces : list Piece) : text :=
  concat (map piece_content pieces).

(** The decoding the specification asks for: a run of odd length gets a
    zero for its missing last digit. *)
Definition hex_decode_padded (hex_str : text) : text :=
  utf8_decode_ignore
    (fromhex (if Nat.even (length hex_str) then hex_str else hex_str ++ [48])).

(** The content of an array: each element is a literal string with the
    characters in front of it, and [tail] follows the last string. *)
Fixpoint array_content (elements : list (text * text)) (tail : text) : text :=
  match elements with
  | [] => tail
  | (gap, str) :: elements' =>
      gap ++ LPAREN :: str ++ RPAREN :: array_content elements' tail
  end.



(** The bytes of a stream after the rewriter has been at it: the bytes
    written back, or the bytes read when nothing is written. *)
Definition rewritten (U : Unicode) (wl : list text) (b : bytes) : bytes :=
  default b (edited_stream U wl b).

(** The annotation entry of a page that the fallback has written. *)
Definition without_annots (annots : option (list Annot)) : option (list Annot) :=
  match annots with
  | Some [] => Some []
  | _ => None
  end.

(** The bytes that the loop over the objects of the file writes for an
    object: the tests of the loop and of [process_form_xobject], a form
    object whose stream is not empty and holds a needle under both
    decodings, and then the five passes run with the complete needle
    list.  [None]: the object is passed over. *)
Definition form_edit (U : Unicode) (watermark_list : list text) (o : Obj)
    : option bytes :=
  if (obj_type o =? "/XObject")%string && (obj_subtype o =? "/Form")%string then
    match obj_stream o with
    | None | Some [] => None
    | Some stream_bytes =>
        let needles := watermark_lowers U watermark_list in
        if any_in needles (lower U (latin1_decode stream_bytes))
           && any_in needles (lower U (utf8_decode_ignore stream_bytes))
        then edited_stream U needles stream_bytes
        else None
    end
  else None.

Definition with_stream (o : Obj) (data : bytes) : Obj :=
  {| obj_type := obj_type o; obj_subtype := obj_subtype o; obj_stream := Some data |}.

Definition edit_object (U : Unicode) (watermark_list : list text) (o : Obj) : Obj :=
  match form_edit U watermark_list o with
  | Some data => with_stream o data
  | None => o
  end.

(** The updates that a pass of the loop through the numbers [xrefs]
    makes for page [page_num] in a file whose objects are [objs]. *)
Definition form_update_events (U : Unicode) (watermark_list : list text)
    (page_num : nat) (objs : list Obj) (xrefs : list nat) : list Event :=
  omap (fun xref =>
          objs !! xref ≫= fun o =>
            UpdatedForm page_num xref <$> form_edit U watermark_list o)
       xrefs.

(** A part of a log without updates of form objects. *)
Definition no_form_update (l : list Event) : Prop :=
  Forall (fun e => match e with UpdatedForm _ _ _ => False | _ => True end) l.

Section Logs.
Context (U : Unicode) (watermark_list : list text).

(** What the loop over the objects adds to the log while it goes through
    the numbers [xrefs] for page [page_num]: at most one update for each
    number, in the order of the numbers, each one the outcome of the five
    passes run with the complete needle list. *)
Inductive form_events (page_num : nat) : list nat -> list Event -> Prop :=
  | form_events_nil : form_events page_num [] []
  | form_events_pass xref xrefs l :
      form_events page_num xrefs l -> form_events page_num (xref :: xrefs) l
  | form_events_edit xref xrefs l old data :
      edited_stream U (watermark_lowers U watermark_list) old = Some data ->
      form_events page_num xrefs l ->
      form_events page_num (xref :: xrefs) (UpdatedForm page_num xref data :: l).

(** What the processing of one page adds to the log: deleted annotations,
    then the updates of form objects, then at most one update of the
    page's own stream. *)
Definition page_events (page_num : nat) (l : list Event) : Prop :=
  exists before xrefs forms after,
    l = before ++ forms ++ after
    /\ no_form_update before /\ no_form_update after
    /\ List.NoDup xrefs /\ form_events page_num xrefs forms.

End Logs.

(** [d'] is [d] but for the streams of form objects: the pages and the
    number of objects are the same, every object keeps its type and
    subtype, and an object that is no form object keeps its stream. *)
Definition same_but_form_streams (d d' : Doc) : Prop :=
  pages d' = pages d
  /\ length (objects d') = length (objects d)
  /\ forall xref o, objects d !! xref = Some o ->
       exists o', objects d' !! xref = Some o'
         /\ obj_type o' = obj_type o /\ obj_subtype o' = obj_subtype o
         /\ (obj_stream o' = obj_stream o
             \/ (obj_type o = "/XObject" /\ obj_subtype o = "/Form")%string).

(** [d.get(k, 0)] *)
Fixpoint count_of (k : text) (d : list (text * nat)) : nat :=
  match d with
  | [] => 0%nat
  | (k', n) :: d' => if bool_decide (k' = k) then n else count_of k d'
  end.

(** How often [k] stands in a list of lines. *)
Definition occurrences (k : text) (lines : list text) : nat :=
  length (List.filter (fun l => bool_decide (l = k)) lines).

(** The lines that are counted: those longer than three characters. *)
Definition counted (lines : list text) : list text :=
  List.filter (fun l => (3 <? length l)%nat) lines.

(** The lines of the pages that the detection reads. *)
Definition checked_lines (U : Unicode) (sample_pages : nat) (doc : list TextDict)
    : list text :=
  concat (map (dict_lines U) (take (Nat.min sample_pages (length doc)) doc)).

(** * Properties *)

(** ** Substitution only deletes *)

Lemma sublist_same_length {A} (l k : list A) :
  l `sublist_of` k -> length l = length k -> l = k.
Proof.
  induction 1 as [|x l k _ IH|x l k Hs _]; simpl; intros Hlen.
  - reflexivity.
  - f_equal. apply IH. lia.
  - apply sublist_length in Hs. lia.
Qed.

Lemma re_sub_from_sublist m remove skip keep s :
  re_sub_from m remove skip keep s `sublist_of` s.
Proof.
  revert skip keep.
  induction s as [|c s IH]; intros skip keep; simpl; [constructor|].
  destruct skip as [|k].
  - destruct (m (c :: s)) as [[group [|k]]|].
    + by apply sublist_skip.
    + destruct (negb (remove group)); simpl;
        [by apply sublist_skip | by apply sublist_cons].
    + by apply sublist_skip.
  - destruct keep; simpl; [by apply sublist_skip | by apply sublist_cons].
Qed.

Lemma re_sub_from_length m remove skip keep s :
  (length (re_sub_from m remove skip keep s) + deleted_from m remove skip keep s
   = length s)%nat.
Proof.
  revert skip keep.
  induction s as [|c s IH]; intros skip keep; simpl; [reflexivity|].
  destruct skip as [|k].
  - destruct (m (c :: s)) as [[group [|k]]|]; simpl.
    + by rewrite IH.
    + destruct (negb (remove group)); simpl; specialize (IH k); [rewrite <- (IH true) | rewrite <- (IH false)]; lia.
    + by rewrite IH.
  - destruct keep; simpl; [rewrite <- (IH k true) | rewrite <- (IH k false)]; lia.
Qed.

Lemma apply_passes_sublist ps s : apply_passes ps s `sublist_of` s.
Proof.
  revert s. induction ps as [|p ps IH]; intros s; simpl; [reflexivity|].
  etrans; [apply IH | apply re_sub_from_sublist].
Qed.

Lemma apply_passes_length ps s :
  (length (apply_passes ps s) + deleted_by ps s = length s)%nat.
Proof.
  revert s. induction ps as [|p ps IH]; intros s; simpl; [lia|].
  specialize (IH (re_sub p.1 p.2 s)).
  pose proof (re_sub_from_length p.1 p.2 0 true s) as H.
  unfold re_sub, deleted in *. lia.
Qed.

Lemma rewrite_stream_sublist U wl s : rewrite_stream U wl s `sublist_of` s.
Proof. apply apply_passes_sublist. Qed.

Lemma rewrite_stream_length U wl s :
  (length (rewrite_stream U wl s) + deleted_total U wl s = length s)%nat.
Proof. apply apply_passes_length. Qed.

Lemma rewrite_stream_shrinks U wl s :
  rewrite_stream U wl s = s \/ (length (rewrite_stream U wl s) < length s)%nat.
Proof.
  pose proof (rewrite_stream_sublist U wl s) as Hs.
  pose proof (sublist_length _ _ Hs) as Hl.
  destruct (decide (length (rewrite_stream U wl s) = length s)) as [E|NE].
  - left. by apply sublist_same_length.
  - right. lia.
Qed.

(** ** The codecs on ASCII data *)

Lemma utf8_decode_ascii b : ascii_bytes b -> utf8_decode_ignore b = latin1_decode b.
Proof.
  induction 1 as [|x b Hx _ IH]; [reflexivity|].
  simpl. apply N.ltb_lt in Hx. rewrite Hx. by rewrite IH.
Qed.

Lemma latin1_encode_decode b : latin1_encode_ignore (latin1_decode b) = b.
Proof.
  induction b as [|x b IH]; [reflexivity|].
  unfold latin1_encode_ignore, latin1_decode in *. simpl.
  rewrite Byte.of_to_N. simpl. f_equal. exact IH.
Qed.

Lemma latin1_encode_sublist s t :
  s `sublist_of` t -> latin1_encode_ignore s `sublist_of` latin1_encode_ignore t.
Proof.
  unfold latin1_encode_ignore.
  induction 1 as [|x s t _ IH|x s t _ IH]; simpl.
  - constructor.
  - destruct (Byte.of_N x); [by apply sublist_skip | done].
  - destruct (Byte.of_N x); [by apply sublist_cons | done].
Qed.

Lemma latin1_encode_length_sub s b :
  s `sublist_of` latin1_decode b ->
  length (latin1_encode_ignore s) = length s.
Proof.
  unfold latin1_encode_ignore, latin1_decode.
  revert s. induction b as [|x b IH]; intros s Hs; simpl in Hs.
  - apply sublist_nil_r in Hs. by subst.
  - apply sublist_cons_r in Hs as [Hs|(s' & -> & Hs)].
    + by apply IH.
    + simpl. rewrite Byte.of_to_N. simpl. f_equal. by apply IH.
Qed.

(** ** C1: what an edit does to a stream *)

(** C1, as the script has it.  For every stream the rewriter edits, the
    edit is a pure range deletion on the decoded text of the stream: the
    bytes written back are the Latin-1 encoding of the rewritten text, the
    rewritten text is the decoded text with some characters taken out and
    the others in their order, and its length is the length of the decoded
    text minus the number of characters deleted.  When all the bytes of the
    stream are ASCII the same holds of the bytes themselves. *)
Theorem edit_is_deletion_on_decoded_text U wl (stream_bytes written : bytes) :
  edited_stream U wl stream_bytes = Some written ->
  let stream_text := utf8_decode_ignore stream_bytes in
  let new_stream_text := rewrite_stream U wl stream_text in
  written = latin1_encode_ignore new_stream_text
  /\ new_stream_text `sublist_of` stream_text
  /\ length new_stream_text
     = (length stream_text - deleted_total U wl stream_text)%nat
  /\ (ascii_bytes stream_bytes ->
      written `sublist_of` stream_bytes
      /\ length written
         = (length stream_bytes - deleted_total U wl stream_text)%nat).
Proof.
  intros Hw stream_text new_stream_text.
  assert (new_stream_text `sublist_of` stream_text) as Hsub
    by apply rewrite_stream_sublist.
  assert (length new_stream_text + deleted_total U wl stream_text
          = length stream_text)%nat as Hlen
    by apply rewrite_stream_length.
  assert (written = latin1_encode_ignore new_stream_text) as Hw'.
  { unfold edited_stream in Hw. fold stream_text in Hw.
    fold new_stream_text in Hw. case_bool_decide; congruence. }
  assert (ascii_bytes stream_bytes -> stream_text = latin1_decode stream_bytes)
    as Hdec by apply utf8_decode_ascii.
  clearbody new_stream_text. clearbody stream_text. subst written.
  split; [reflexivity|]. split; [exact Hsub|]. split; [lia|].
  intros Hascii. specialize (Hdec Hascii). subst stream_text.
  split.
  - apply latin1_encode_sublist in Hsub.
    by rewrite latin1_encode_decode in Hsub.
  - rewrite (latin1_encode_length_sub _ stream_bytes) by done.
    assert (length (latin1_decode stream_bytes) = length stream_bytes) as E
      by apply length_map.
    lia.
Qed.

Lemma edit_is_deletion_on_decoded_text_witness :
  B "q  Q" `sublist_of` B "q BT (DRAFT) Tj ET Q"
  /\ length (B "q  Q")
     = (length (B "q BT (DRAFT) Tj ET Q")
        - deleted_total ascii_only [T "draft"]
            (utf8_decode_ignore (B "q BT (DRAFT) Tj ET Q")))%nat.
Proof.
  refine (proj2 (proj2 (proj2
    (edit_is_deletion_on_decoded_text ascii_only [T "draft"]
       (B "q BT (DRAFT) Tj ET Q") (B "q  Q") _))) _).
  - vm_compute. reflexivity.
  - unfold ascii_bytes. repeat constructor.
Defined.

(** C1, as the specification has it, fails on a stream with a byte that is
    not valid UTF-8.  The text object of the 17-byte stream below takes up
    its first 16 bytes and is deleted; the last byte, [0xFF], lies outside
    the deleted range and is lost as well: nothing is written back. *)
Lemma edit_loses_invalid_utf8_byte :
  edited_stream ascii_only [T "draft"] (B "BT (DRAFT) Tj ET" ++ [xff]) = Some []
  /\ length (B "BT (DRAFT) Tj ET" ++ [xff]) = 17%nat
  /\ deleted_total ascii_only [T "draft"]
       (utf8_decode_ignore (B "BT (DRAFT) Tj ET" ++ [xff])) = 16%nat
  /\ xff ∈ B "BT (DRAFT) Tj ET" ++ [xff].
Proof.
  repeat split; try (vm_compute; reflexivity).
  apply list_elem_of_In, in_app_iff. right. by left.
Qed.

(** ** C4: running the excision again *)

Lemma iter_fixed {A} (f : A -> A) x n : f x = x -> Nat.iter n f x = x.
Proof. intros H. induction n as [|n IH]; simpl; [done|]. by rewrite IH. Qed.

Lemma shrinking_iter_fixed {A} (f : list A -> list A) :
  (forall s, f s = s \/ (length (f s) < length s)%nat) ->
  forall n s, (length s <= n)%nat -> f (Nat.iter n f s) = Nat.iter n f s.
Proof.
  intros Hf n. induction n as [|n IH]; intros s Hn.
  - simpl. destruct (Hf s) as [E|L]; [done | lia].
  - destruct (Hf s) as [E|L].
    + rewrite (iter_fixed f s (S n) E). exact E.
    + rewrite !Nat.iter_succ_r. apply IH. lia.
Qed.

Lemma utf8_decode_length_le n : forall b : bytes,
  (length b <= n)%nat -> (length (utf8_decode_ignore b) <= length b)%nat.
Proof.
  induction n as [|n IH]; intros b Hn.
  - destruct b; [simpl; lia | simpl in Hn; lia].
  - destruct b as [|b0 t1]; [simpl; lia|].
    assert (forall t : bytes, (length t <= n)%nat ->
              (length (utf8_decode_ignore t) <= length t)%nat) as H by exact IH.
    simpl in Hn. cbn [utf8_decode_ignore].
    repeat match goal with
    | |- context [if ?c then _ else _] => destruct c
    | |- context [match ?t with [] => _ | _ :: _ => _ end] =>
        is_var t; destruct t; cbn [length] in Hn
    end;
    cbn [length];
    repeat match goal with
    | |- context [length (utf8_decode_ignore ?t)] =>
        lazymatch goal with
        | _ : (length (utf8_decode_ignore t) <= length t)%nat |- _ => fail
        | _ => assert (length (utf8_decode_ignore t) <= length t)%nat
                 by (apply H; cbn [length]; lia)
        end
    end; cbn [length] in *; lia.
Qed.

Lemma utf8_decode_length (b : bytes) :
  (length (utf8_decode_ignore b) <= length b)%nat.
Proof. by apply (utf8_decode_length_le (length b)). Qed.

Lemma latin1_encode_length (s : text) :
  (length (latin1_encode_ignore s) <= length s)%nat.
Proof.
  unfold latin1_encode_ignore.
  induction s as [|c s IH]; [simpl; lia|].
  change (omap Byte.of_N (c :: s))
    with (match Byte.of_N c with
          | Some b => b :: omap Byte.of_N s
          | None => omap Byte.of_N s
          end).
  destruct (Byte.of_N c); cbn [length]; lia.
Qed.

Lemma edited_stream_shorter U wl (stream_bytes written : bytes) :
  edited_stream U wl stream_bytes = Some written ->
  (length written < length stream_bytes)%nat.
Proof.
  unfold edited_stream. intros H. case_bool_decide as Hne; [discriminate|].
  injection H as <-.
  pose proof (utf8_decode_length stream_bytes).
  pose proof (latin1_encode_length
                (rewrite_stream U wl (utf8_decode_ignore stream_bytes))).
  destruct (rewrite_stream_shrinks U wl (utf8_decode_ignore stream_bytes));
    [done | lia].
Qed.

Lemma rewritten_shrinks U wl (b : bytes) :
  rewritten U wl b = b \/ (length (rewritten U wl b) < length b)%nat.
Proof.
  unfold rewritten. destruct (edited_stream U wl b) as [data|] eqn:E; simpl.
  - right. by apply (edited_stream_shorter U wl).
  - by left.
Qed.

Lemma rewritten_fixed U wl (b : bytes) :
  rewritten U wl b = b -> edited_stream U wl b = None.
Proof.
  unfold rewritten. destruct (edited_stream U wl b) as [data|] eqn:E; simpl; [|done].
  intros ->. apply edited_stream_shorter in E. lia.
Qed.

(** C4, as the script has it.  The rewriter, which decodes the bytes of a
    stream, runs the five passes and encodes the result, writes nothing
    for a stream or writes strictly fewer bytes than it read; so the
    rewriter applied again and again to the bytes it wrote comes, after at
    most as many applications as the stream has bytes, to bytes for which
    it writes nothing.  The second application need not be that one. *)
Theorem rewriter_reaches_fixed_point U wl (b : bytes) :
  (edited_stream U wl b = None \/ (length (rewritten U wl b) < length b)%nat)
  /\ edited_stream U wl (Nat.iter (length b) (rewritten U wl) b) = None.
Proof.
  split.
  - destruct (edited_stream U wl b) as [data|] eqn:E; [right | by left].
    unfold rewritten. rewrite E. by apply (edited_stream_shorter U wl).
  - apply rewritten_fixed.
    apply shrinking_iter_fixed; [apply rewritten_shrinks | lia].
Qed.

(** C4, as the specification has it, fails: the second run on the output
    of the first edits again.  Page 0 shows a needle in a text that the
    passes cannot take out, so that it gets to the loop over the objects
    of the file in every run; form object 3 is named by page 1, which
    shows no needle and is never cleaned.  In the first run the lazy group
    of the text-object pattern ends at the [ET] of [SECRET] and holds no
    complete string, so that the text object of the form stays and only
    its first string operand goes; in the second run the text object is
    matched whole and deleted. *)
Lemma second_run_edits_the_form_again :
  let first :=
    remove_watermark_pymupdf ascii_only (kept_form_fitz ascii_only) [T "draft"]
      kept_form_doc in
  let second :=
    remove_watermark_pymupdf ascii_only (kept_form_fitz ascii_only) [T "draft"]
      (doc first) in
  log first = [UpdatedForm 0 3 (B "q BT /F1 12 Tf  (DRAFT)Tj ET Q")]
  /\ log second = [UpdatedForm 0 3 (B "q  Q")]
  /\ xref_stream (doc first) 3 = Some (B "q BT /F1 12 Tf  (DRAFT)Tj ET Q")
  /\ xref_stream (doc second) 3 = Some (B "q  Q")
  /\ doc second <> doc first.
Proof.
  repeat split; try (vm_compute; reflexivity).
  intros H. apply (f_equal (fun d => xref_stream d 3)) in H.
  vm_compute in H. discriminate.
Qed.

(** ** Literal strings *)


Lemma literal_strings_from_skip p s :
  literal_strings_from (length p) (p ++ s) = literal_strings_from 0 s.
Proof. induction p as [|c p IH]; simpl; [reflexivity | exact IH]. Qed.


Lemma literal_strings_gap gap rest :
  Forall (fun c => c <> LPAREN) gap ->
  literal_strings (gap ++ rest) = literal_strings rest.
Proof.
  unfold literal_strings.
  induction 1 as [|c gap Hc _ IH]; simpl; [reflexivity|].
  apply N.eqb_neq in Hc. by rewrite Hc.
Qed.

Lemma literal_body_pieces pieces rest :
  Forall piece_ok pieces ->
  literal_body (pieces_source pieces ++ RPAREN :: rest)
  = Some (pieces_content pieces, S (length (pieces_source pieces))).
Proof.
  unfold pieces_source, pieces_content.
  induction 1 as [|p pieces Hp _ IH]; [reflexivity|].
  destruct p as [c|esc_char]; cbn [map concat piece_source piece_content app].
  - destruct Hp as [Hb Hr]. apply N.eqb_neq in Hb, Hr.
    cbn [literal_body]. by rewrite Hb, Hr, IH.
  - cbn [literal_body]. rewrite N.eqb_refl, IH. cbn [length]. reflexivity.
Qed.

Lemma run_holds p s : Forall (fun c => p c = true) (run p s).
Proof.
  induction s as [|c s IH]; simpl; [constructor|].
  destruct (p c) eqn:E; by constructor.
Qed.

Lemma run_split p s : s = run p s ++ drop (length (run p s)) s.
Proof.
  induction s as [|c s IH]; simpl; [reflexivity|].
  destruct (p c); simpl; [by f_equal | reflexivity].
Qed.

Lemma run_next p s c rest :
  drop (length (run p s)) s = c :: rest -> p c = false.
Proof.
  induction s as [|x s IH]; simpl; [done|].
  destruct (p x) eqn:E; simpl; [exact IH|].
  by intros [= <- _].
Qed.

Lemma match_operand_group U open close operator s group n :
  match_operand U open close operator s = Some (group, n) ->
  Forall (fun c => c <> close) group
  /\ exists rest, s = open :: group ++ close :: rest.
Proof.
  unfold match_operand. destruct s as [|c s1]; [done|].
  destruct (N.eqb_spec c open) as [->|]; [|done].
  destruct (drop _ s1) as [|d s2] eqn:Hd; [done|].
  destruct (_ && _); [|done]. intros [= <- _].
  pose proof (run_next _ _ _ _ Hd) as Hclose.
  apply negb_false_iff, N.eqb_eq in Hclose. subst d.
  split.
  - eapply Forall_impl; [apply run_holds|].
    intros c Hc. by apply negb_true_iff, N.eqb_neq in Hc.
  - exists s2. f_equal. rewrite <- Hd. apply run_split.
Qed.

(** C3, as the script has it.  The scanner reads a literal string piece by
    piece, a backslash and the character behind it being one piece, and
    the string ends at the first closing parenthesis that is not the
    second character of such a piece; an opening parenthesis inside it is
    content like any other character and opens no level of nesting.  The
    operand of the patterns that delete single operators ends at the first
    closing parenthesis of any kind. *)
Theorem literal_string_ends_at_first_close_outside_escapes :
  (forall (pieces : list Piece) (rest : text),
     Forall piece_ok pieces ->
     literal_strings (LPAREN :: pieces_source pieces ++ RPAREN :: rest)
     = pieces_content pieces :: literal_strings rest)
  /\ (forall U operator (s group : text) (n : nat),
        match_operand U LPAREN RPAREN operator s = Some (group, n) ->
        Forall (fun c => c <> RPAREN) group
        /\ exists rest, s = LPAREN :: group ++ RPAREN :: rest).
Proof.
  split.
  - intros pieces rest H. unfold literal_strings. cbn [literal_strings_from].
    rewrite N.eqb_refl, (literal_body_pieces _ _ H). f_equal.
    replace (pieces_source pieces ++ RPAREN :: rest)
      with ((pieces_source pieces ++ [RPAREN]) ++ rest)
      by (by rewrite <- app_assoc).
    replace (S (length (pieces_source pieces)))
      with (length (pieces_source pieces ++ [RPAREN]))
      by (rewrite length_app; simpl; lia).
    apply literal_strings_from_skip.
  - intros U operator s group n. apply match_operand_group.
Qed.

Lemma literal_string_ends_at_first_close_outside_escapes_witness :
  literal_strings (T "(A \) (B\\) C) Tj") = T "A ) (B" :: literal_strings (T " C) Tj")
  /\ Forall (fun c => c <> RPAREN) (T "DRAFT " ++ [BACKSLASH])
  /\ exists rest,
       T "(DRAFT \) Tj" = LPAREN :: (T "DRAFT " ++ [BACKSLASH]) ++ RPAREN :: rest.
Proof.
  split.
  - apply (proj1 literal_string_ends_at_first_close_outside_escapes
             [Copied 65; Copied 32; Escaped RPAREN; Copied 32; Copied LPAREN;
              Copied 66; Escaped BACKSLASH]
             (T " C) Tj")).
    repeat constructor; discriminate.
  - apply (proj2 literal_string_ends_at_first_close_outside_escapes
             ascii_only (T "Tj") (T "(DRAFT \) Tj") (T "DRAFT " ++ [BACKSLASH]) 12%nat).
    vm_compute. reflexivity.
Defined.

(** C3, as the specification has it, fails on its own example: the buffer
    is read as the string [A (B] followed by the characters [ C) Tj]; no
    pattern finds a text-showing operator with a string operand in it, and
    the passes leave it alone whatever the needle. *)
Lemma nested_parentheses_are_split :
  literal_strings (T "(A (B) C) Tj") = [T "A (B"]
  /\ literal_strings (T "(A (B) C) Tj") <> [T "A (B) C"]
  /\ rewrite_stream ascii_only [T "a (b) c"] (T "(A (B) C) Tj") = T "(A (B) C) Tj".
Proof.
  repeat split; try (vm_compute; reflexivity).
  vm_compute. discriminate.
Qed.

(** C6 on the script: what the scanner makes of escape sequences.  [\n]
    gives the letter [n], not a line feed; a doubled backslash gives
    nothing; a backslash before any other character gives nothing; only the
    two escaped parentheses come out as the specification says. *)
Lemma escape_sequences_as_scanned :
  literal_strings (T "(a\nb)") = [T "anb"]
  /\ literal_strings (T "(a\tb)") = [T "atb"]
  /\ literal_strings (T "(a\\b)") = [T "ab"]
  /\ literal_strings (T "(a\qb)") = [T "ab"]
  /\ literal_strings (T "(\(hi\))") = [T "(hi)"].
Proof. repeat split; vm_compute; reflexivity. Qed.

(** ** Hex strings *)

Lemma run_stops p h d rest :
  Forall (fun c => p c = true) h -> p d = false -> run p (h ++ d :: rest) = h.
Proof.
  intros Hh Hd. induction Hh as [|c h Hc _ IH]; simpl.
  - by rewrite Hd.
  - by rewrite Hc, IH.
Qed.

Lemma match_hex_closed h rest :
  Forall (fun c => is_hexdigit c = true) h -> h <> [] ->
  match_hex (LT :: h ++ GT :: rest) = Some h.
Proof.
  intros Hh Hne. unfold match_hex.
  change (LT =? LT) with true. cbv iota.
  rewrite (run_stops is_hexdigit h GT rest Hh eq_refl).
  destruct h as [|n l]; [done|]. rewrite drop_app_length. reflexivity.
Qed.

Lemma hex_matches_from_skip p s :
  hex_matches_from (length p) (p ++ s) = hex_matches_from 0 s.
Proof. induction p as [|c p IH]; simpl; [reflexivity | exact IH]. Qed.

Lemma hex_matches_closed h rest :
  Forall (fun c => is_hexdigit c = true) h -> h <> [] ->
  hex_matches (LT :: h ++ GT :: rest) = h :: hex_matches rest.
Proof.
  intros Hh Hne. unfold hex_matches.
  change (hex_matches_from 0 (LT :: h ++ GT :: rest))
    with (match match_hex (LT :: h ++ GT :: rest) with
          | Some h' => h' :: hex_matches_from (S (length h')) (h ++ GT :: rest)
          | None => hex_matches_from 0 (h ++ GT :: rest)
          end).
  rewrite (match_hex_closed h rest Hh Hne). f_equal.
  replace (h ++ GT :: rest) with ((h ++ [GT]) ++ rest)
    by (by rewrite <- app_assoc).
  replace (S (length h)) with (length (h ++ [GT]))
    by (rewrite length_app; simpl; lia).
  apply hex_matches_from_skip.
Qed.

Lemma hex_matches_none s :
  Forall (fun c => c <> LT) s -> hex_matches s = [].
Proof.
  unfold hex_matches.
  induction 1 as [|c s Hc _ IH]; [reflexivity|].
  change (hex_matches_from 0 (c :: s))
    with (match match_hex (c :: s) with
          | Some h' => h' :: hex_matches_from (S (length h')) s
          | None => hex_matches_from 0 s
          end).
  unfold match_hex. apply N.eqb_neq in Hc. by rewrite Hc.
Qed.

(** C8, as the script has it.  A hex string with an odd number of digits
    is passed over: it is not padded, it is not decoded, and it gives no
    text to match against. *)
Theorem odd_hex_string_is_passed_over (hex_str rest : text) :
  Forall (fun c => is_hexdigit c = true) hex_str ->
  Nat.odd (length hex_str) = true ->
  hex_texts (LT :: hex_str ++ GT :: rest) = hex_texts rest.
Proof.
  intros Hh Hodd. unfold hex_texts.
  rewrite hex_matches_closed; [|done|by destruct hex_str].
  simpl. rewrite <- Nat.negb_odd, Hodd. reflexivity.
Qed.

Lemma odd_hex_string_is_passed_over_witness :
  hex_texts (LT :: T "414" ++ GT :: T " Tj <4142> Tj") = hex_texts (T " Tj <4142> Tj").
Proof.
  apply (odd_hex_string_is_passed_over (T "414") (T " Tj <4142> Tj")).
  - repeat constructor.
  - reflexivity.
Defined.

(** C8, as the specification has it, fails: padded with a zero, [<414>]
    would read [A@]; the script finds no text in it, and a text object
    that shows it is kept when the needle is that text. *)
Lemma odd_hex_string_is_not_decoded :
  hex_decode_padded (T "414") = T "A@"
  /\ all_text (T "<414>") = []
  /\ should_remove_text_object ascii_only [T "a@"] (T " <414> Tj ") = false
  /\ rewrite_stream ascii_only [T "a@"] (T "BT <414> Tj ET") = T "BT <414> Tj ET".
Proof. repeat split; vm_compute; reflexivity. Qed.

(** ** Arrays *)

Lemma Forall_and_l {A} (P Q : A -> Prop) l :
  Forall (fun x => P x /\ Q x) l -> Forall P l.
Proof. intros H. eapply Forall_impl; [exact H | simpl; tauto]. Qed.

Lemma Forall_and_r {A} (P Q : A -> Prop) l :
  Forall (fun x => P x /\ Q x) l -> Forall Q l.
Proof. intros H. eapply Forall_impl; [exact H | simpl; tauto]. Qed.






(** ** The page loop *)

Section Run.
Context (U : Unicode) (F : Fitz) (watermark_list : list text).

Local Abbreviation needles := (watermark_lowers U watermark_list).
Local Abbreviation page_step := (process_page U F watermark_list).
Local Abbreviation excise := (remove_watermark_pymupdf U F watermark_list).

Lemma process_page_skips st page_num :
  page_has_watermark U F watermark_list (doc st) page_num = false ->
  page_step st page_num = st.
Proof.
  intros H. unfold process_page. destruct watermark_list; [done|].
  by rewrite H.
Qed.

Lemma process_page_no_needles st page_num :
  watermark_list = [] -> page_step st page_num = st.
Proof. intros H. unfold process_page. by rewrite H. Qed.

Lemma skipped_pages_leave_state st page_nums :
  (watermark_list = [] \/
   forall page_num, In page_num page_nums ->
     page_has_watermark U F watermark_list (doc st) page_num = false) ->
  foldl page_step st page_nums = st.
Proof.
  intros H. induction page_nums as [|p ps IH]; simpl; [reflexivity|].
  assert (page_step st p = st) as ->.
  { destruct H as [H|H]; [by apply process_page_no_needles|].
    apply process_page_skips, H. by left. }
  apply IH. destruct H as [H|H]; [by left|]. right. intros q Hq. apply H. by right.
Qed.

End Run.

(** C10.  A page whose text, lowercased, contains no needle is skipped:
    processing it leaves the document as it was, annotations and streams
    alike, and records no deletion and no update. *)
Theorem page_without_watermark_is_skipped U F watermark_list st page_num :
  page_has_watermark U F watermark_list (doc st) page_num = false ->
  process_page U F watermark_list st page_num = st.
Proof. apply process_page_skips. Qed.

Lemma page_without_watermark_is_skipped_witness :
  process_page ascii_only (plain_fitz ascii_only) [T "DRAFT"]
    {| doc := one_page_doc (B "BT /F1 12 Tf (Hello) Tj ET"); log := [] |} 0
  = {| doc := one_page_doc (B "BT /F1 12 Tf (Hello) Tj ET"); log := [] |}.
Proof.
  apply (page_without_watermark_is_skipped ascii_only (plain_fitz ascii_only)
           [T "DRAFT"]
           {| doc := one_page_doc (B "BT /F1 12 Tf (Hello) Tj ET"); log := [] |} 0).
  vm_compute. reflexivity.
Defined.

(** C9.  When the needle list is empty, or when no needle occurs in the
    lowercased text of any page, the run leaves every stream (and the whole
    document) as it was and the count of edited streams is 0. *)
Theorem no_match_is_pass_through U F watermark_list (d : Doc) :
  (watermark_list = [] \/
   forall page_num, (page_num < length (pages d))%nat ->
     page_has_watermark U F watermark_list d page_num = false) ->
  doc (remove_watermark_pymupdf U F watermark_list d) = d
  /\ log (remove_watermark_pymupdf U F watermark_list d) = []
  /\ edited_count (log (remove_watermark_pymupdf U F watermark_list d)) = 0%nat.
Proof.
  intros H. unfold remove_watermark_pymupdf.
  rewrite skipped_pages_leave_state; [done|].
  destruct H as [H|H]; [by left|]. right. simpl. intros p Hp.
  apply H. apply in_seq in Hp. lia.
Qed.

Lemma no_match_is_pass_through_witness :
  doc (remove_watermark_pymupdf ascii_only (plain_fitz ascii_only) [T "DRAFT"]
         (shared_form_doc (B "BT /F1 12 Tf (Hello) Tj ET")))
  = shared_form_doc (B "BT /F1 12 Tf (Hello) Tj ET")
  /\ log (remove_watermark_pymupdf ascii_only (plain_fitz ascii_only) [T "DRAFT"]
            (shared_form_doc (B "BT /F1 12 Tf (Hello) Tj ET"))) = []
  /\ edited_count
       (log (remove_watermark_pymupdf ascii_only (plain_fitz ascii_only) [T "DRAFT"]
               (shared_form_doc (B "BT /F1 12 Tf (Hello) Tj ET")))) = 0%nat.
Proof.
  apply (no_match_is_pass_through ascii_only (plain_fitz ascii_only) [T "DRAFT"]
           (shared_form_doc (B "BT /F1 12 Tf (Hello) Tj ET"))).
  right. intros page_num Hlt. simpl in Hlt.
  destruct page_num as [|[|page_num]]; [vm_compute; reflexivity ..|lia].
Defined.

(** ** The updates of form objects in the log of a run *)

Lemma form_updates_app xref l1 l2 :
  form_updates xref (l1 ++ l2) = (form_updates xref l1 + form_updates xref l2)%nat.
Proof. unfold form_updates. by rewrite List.filter_app, length_app. Qed.

Lemma form_updates_on_app page_num xref l1 l2 :
  form_updates_on page_num xref (l1 ++ l2)
  = (form_updates_on page_num xref l1 + form_updates_on page_num xref l2)%nat.
Proof. unfold form_updates_on. by rewrite List.filter_app, length_app. Qed.

Lemma form_updates_on_le page_num xref l :
  (form_updates_on page_num xref l <= form_updates xref l)%nat.
Proof.
  unfold form_updates_on, form_updates.
  induction l as [|e l IH]; simpl; [lia|].
  destruct e as [| p x data |]; simpl; try exact IH.
  destruct (p =? page_num)%nat, (x =? xref)%nat; simpl; lia.
Qed.

Lemma no_form_update_count xref l : no_form_update l -> form_updates xref l = 0%nat.
Proof.
  unfold form_updates.
  induction 1 as [|e l He _ IH]; [reflexivity|].
  destruct e; simpl; [exact IH | done | exact IH].
Qed.

Lemma no_form_update_In l q xref data :
  no_form_update l -> ~ In (UpdatedForm q xref data) l.
Proof.
  induction 1 as [|e l He _ IH]; intros Hin; [destruct Hin|].
  destruct Hin as [->|Hin]; [exact He | by apply IH].
Qed.

Section RunLog.
Context (U : Unicode) (F : Fitz) (watermark_list : list text).

Local Abbreviation needles := (watermark_lowers U watermark_list).
Local Abbreviation page_step := (process_page U F watermark_list).

Lemma process_form_xobject_log st xobj_xref page_num :
  exists l, log (process_form_xobject U watermark_list st xobj_xref page_num).1
            = log st ++ l
            /\ form_events U watermark_list page_num [xobj_xref] l.
Proof.
  assert (exists l, log st = log st ++ l /\ form_events U watermark_list page_num [xobj_xref] l) as Hnone.
  { exists []. split; [by rewrite app_nil_r | repeat constructor]. }
  unfold process_form_xobject.
  destruct (xref_stream (doc st) xobj_xref) as [[|b bs]|]; try exact Hnone.
  destruct (negb _); [exact Hnone|].
  destruct (edited_stream U needles (b :: bs)) as [data|] eqn:Hed; [|exact Hnone].
  assert (exists l, log st ++ [UpdatedForm page_num xobj_xref data] = log st ++ l
                    /\ form_events U watermark_list page_num [xobj_xref] l) as Hsome.
  { eexists. split; [reflexivity|]. econstructor; [exact Hed | constructor]. }
  destruct (update_stream _ _ _ (Some false)); [exact Hsome|].
  destruct (update_stream _ _ _ (Some true)); [exact Hsome | exact Hnone].
Qed.

Lemma form_step_log page_num st xref_num :
  exists l, log (form_step U watermark_list page_num st xref_num) = log st ++ l
            /\ form_events U watermark_list page_num [xref_num] l.
Proof.
  assert (exists l, log st = log st ++ l /\ form_events U watermark_list page_num [xref_num] l) as Hnone.
  { exists []. split; [by rewrite app_nil_r | repeat constructor]. }
  unfold form_step.
  destruct (objects (doc st) !! xref_num) as [o|]; [|exact Hnone].
  destruct (_ && _); [|exact Hnone].
  destruct (obj_stream o) as [[|b bs]|]; try exact Hnone.
  destruct (any_in _ _); [|exact Hnone].
  apply process_form_xobject_log.
Qed.

Lemma form_events_cons page_num xref xrefs l1 l2 :
  form_events U watermark_list page_num [xref] l1 -> form_events U watermark_list page_num xrefs l2 ->
  form_events U watermark_list page_num (xref :: xrefs) (l1 ++ l2).
Proof.
  intros H1 H2. inversion H1 as [|? ? ? Hn|? ? ? ? ? Hed Hn]; subst.
  - inversion Hn; subst. simpl. by constructor.
  - inversion Hn; subst. simpl. by econstructor.
Qed.

Lemma form_loop_log page_num xrefs st :
  exists l, log (foldl (form_step U watermark_list page_num) st xrefs) = log st ++ l
            /\ form_events U watermark_list page_num xrefs l.
Proof.
  revert st. induction xrefs as [|x xrefs IH]; intros st; simpl.
  - exists []. split; [by rewrite app_nil_r | constructor].
  - destruct (form_step_log page_num st x) as (l1 & E1 & H1).
    destruct (IH (form_step U watermark_list page_num st x)) as (l2 & E2 & H2).
    exists (l1 ++ l2). split.
    + by rewrite E2, E1, app_assoc.
    + by apply form_events_cons.
Qed.

Lemma form_events_absent page_num xrefs l xref :
  form_events U watermark_list page_num xrefs l -> ~ In xref xrefs -> form_updates xref l = 0%nat.
Proof.
  induction 1 as [|x xrefs l _ IH|x xrefs l old data _ _ IH]; intros Hn.
  - reflexivity.
  - apply IH. intros Hin. apply Hn. by right.
  - unfold form_updates in *. simpl.
    destruct (Nat.eqb_spec x xref) as [->|_]; [exfalso; apply Hn; by left|].
    apply IH. intros Hin. apply Hn. by right.
Qed.

Lemma form_events_once page_num xrefs l xref :
  form_events U watermark_list page_num xrefs l -> List.NoDup xrefs -> (form_updates xref l <= 1)%nat.
Proof.
  induction 1 as [|x xrefs l _ IH|x xrefs l old data _ Hev IH]; intros Hnd.
  - unfold form_updates. simpl. lia.
  - apply IH. by inversion Hnd.
  - inversion Hnd as [|? ? Hx Hnd']; subst.
    change (UpdatedForm page_num x data :: l)
      with ([UpdatedForm page_num x data] ++ l).
    rewrite form_updates_app. unfold form_updates at 1. simpl.
    destruct (Nat.eqb_spec x xref) as [->|_]; simpl.
    + by rewrite (form_events_absent _ _ _ _ Hev Hx).
    + by apply IH.
Qed.

Lemma form_events_page page_num xrefs l q xref :
  form_events U watermark_list page_num xrefs l -> q <> page_num -> form_updates_on q xref l = 0%nat.
Proof.
  intros H Hq. unfold form_updates_on.
  induction H as [|x xrefs l _ IH|x xrefs l old data _ _ IH]; try done.
  simpl. destruct (Nat.eqb_spec page_num q) as [->|_]; [done|]. exact IH.
Qed.

Lemma form_events_data page_num xrefs l q xref data :
  form_events U watermark_list page_num xrefs l -> In (UpdatedForm q xref data) l ->
  exists old, edited_stream U needles old = Some data.
Proof.
  induction 1 as [|x xrefs l _ IH|x xrefs l old data' Hed _ IH]; intros Hin.
  - destruct Hin.
  - by apply IH.
  - destruct Hin as [E|Hin]; [|by apply IH].
    injection E as _ _ <-. by exists old.
Qed.

Lemma page_events_quiet page_num l : no_form_update l -> page_events U watermark_list page_num l.
Proof.
  intros H. exists l, [], [], []. rewrite app_nil_r.
  repeat split; try done; constructor.
Qed.

Lemma delete_loop_log page_num (l : list Annot) st :
  exists dels, log (foldl (delete_step F page_num) st l) = log st ++ dels
               /\ no_form_update dels.
Proof.
  revert st. induction l as [|a l IH]; intros st; simpl.
  - exists []. split; [by rewrite app_nil_r | constructor].
  - destruct (IH (delete_step F page_num st a)) as (dels & E & Hdels).
    rewrite E. unfold delete_step.
    destruct (delete_annot F (doc st) page_num a) as [d|].
    + exists (DeletedAnnot page_num a :: dels). split.
      * simpl. by rewrite <- app_assoc.
      * by constructor.
    + by exists dels.
Qed.

Lemma delete_annots_log st page_num :
  exists dels, log (delete_annots U F watermark_list st page_num) = log st ++ dels
               /\ no_form_update dels.
Proof.
  unfold delete_annots. destruct (pages (doc st) !! page_num) as [page|].
  - apply delete_loop_log.
  - exists []. split; [by rewrite app_nil_r | constructor].
Qed.

Lemma process_page_log st page_num :
  exists l, log (page_step st page_num) = log st ++ l /\ page_events U watermark_list page_num l.
Proof.
  assert (exists l', log st = log st ++ l' /\ page_events U watermark_list page_num l') as Hnone.
  { exists []. split; [by rewrite app_nil_r|]. apply page_events_quiet. constructor. }
  unfold process_page.
  destruct watermark_list as [|w ws] eqn:Hwl; [exact Hnone|].
  rewrite <- Hwl in Hnone |- *. clear Hwl w ws.
  destruct (negb _); [exact Hnone|]. cbv zeta.
  destruct (delete_annots_log st page_num) as (dels & Hdel & Hdels).
  set (st1 := delete_annots U F watermark_list st page_num) in *. clearbody st1.
  assert (forall st', log st' = log st1 ->
            exists l', log st' = log st ++ l' /\ page_events U watermark_list page_num l') as Hst1.
  { intros st' E. exists dels. split; [by rewrite E, Hdel|].
    by apply page_events_quiet. }
  destruct (clean_contents F (doc st1) page_num) as [d|]; [|by apply Hst1].
  destruct (_ =? _)%nat; [by apply Hst1|].
  destruct (read_contents F _ page_num) as [[|b bs]|]; try (by apply Hst1).
  match goal with
  | |- context [foldl ?f ?s ?xs] =>
      destruct (form_loop_log page_num xs s) as (forms & Hforms & Hev);
      assert (List.NoDup xs) as Hnd by apply seq_NoDup;
      set (xrefs := xs) in *; clearbody xrefs;
      set (st2 := foldl f s xrefs) in *; clearbody st2
  end.
  simpl in Hforms. rewrite Hdel in Hforms.
  assert (forall st', (exists after, log st' = log st2 ++ after /\ no_form_update after) ->
            exists l', log st' = log st ++ l' /\ page_events U watermark_list page_num l') as Hdone.
  { intros st' (after & E & Hafter). exists (dels ++ forms ++ after). split.
    - by rewrite E, Hforms, <- !app_assoc.
    - by exists dels, xrefs, forms, after. }
  assert (exists l', log st2 = log st ++ l' /\ page_events U watermark_list page_num l') as Hstay.
  { apply Hdone. exists []. split; [by rewrite app_nil_r | constructor]. }
  destruct (edited_stream U needles (b :: bs)) as [data|]; [|exact Hstay].
  destruct (pages (doc st2) !! page_num ≫= _) as [xref|]; [|exact Hstay].
  destruct (update_contents (doc st2) xref data) as [d'|]; [|exact Hstay].
  apply Hdone. eexists. split; [reflexivity|]. by repeat constructor.
Qed.

Lemma page_events_once page_num l xref :
  page_events U watermark_list page_num l -> (form_updates xref l <= 1)%nat.
Proof.
  intros (before & xrefs & forms & after & -> & Hb & Ha & Hnd & Hev).
  rewrite !form_updates_app, (no_form_update_count _ _ Hb),
    (no_form_update_count _ _ Ha).
  pose proof (form_events_once _ _ _ xref Hev Hnd). lia.
Qed.

Lemma page_events_other_page page_num l q xref :
  page_events U watermark_list page_num l -> q <> page_num -> form_updates_on q xref l = 0%nat.
Proof.
  intros (before & xrefs & forms & after & -> & Hb & Ha & Hnd & Hev) Hq.
  rewrite !form_updates_on_app, (form_events_page _ _ _ _ xref Hev Hq).
  pose proof (form_updates_on_le q xref before).
  pose proof (form_updates_on_le q xref after).
  rewrite (no_form_update_count _ _ Hb) in *.
  rewrite (no_form_update_count _ _ Ha) in *. lia.
Qed.

Lemma page_events_data page_num l q xref data :
  page_events U watermark_list page_num l -> In (UpdatedForm q xref data) l ->
  exists old, edited_stream U needles old = Some data.
Proof.
  intros (before & xrefs & forms & after & -> & Hb & Ha & Hnd & Hev) Hin.
  apply in_app_iff in Hin as [Hin|Hin].
  { by apply no_form_update_In in Hin. }
  apply in_app_iff in Hin as [Hin|Hin].
  { by eapply form_events_data. }
  by apply no_form_update_In in Hin.
Qed.

Lemma page_loop_log page_nums st :
  exists l, log (foldl page_step st page_nums) = log st ++ l
    /\ (forall xref, (form_updates xref l <= length page_nums)%nat)
    /\ (forall q xref, ~ In q page_nums -> form_updates_on q xref l = 0%nat)
    /\ (forall q xref, List.NoDup page_nums -> (form_updates_on q xref l <= 1)%nat)
    /\ (forall q xref data, In (UpdatedForm q xref data) l ->
          exists old, edited_stream U needles old = Some data).
Proof.
  revert st. induction page_nums as [|p ps IH]; intros st; simpl.
  - exists []. rewrite app_nil_r. repeat split; try done.
    intros. unfold form_updates_on. simpl. lia.
  - destruct (process_page_log st p) as (l1 & E1 & H1).
    destruct (IH (page_step st p)) as (l2 & E2 & Hcount & Habsent & Honce & Hdata).
    exists (l1 ++ l2). split; [by rewrite E2, E1, app_assoc|].
    split; [|split; [|split]].
    + intros xref. rewrite form_updates_app.
      pose proof (page_events_once _ _ xref H1). specialize (Hcount xref). lia.
    + intros q xref Hq. rewrite form_updates_on_app.
      rewrite (page_events_other_page _ _ q xref H1)
        by (intros ->; apply Hq; by left).
      apply Habsent. intros Hin. apply Hq. by right.
    + intros q xref Hnd. inversion Hnd as [|? ? Hp Hnd']; subst.
      rewrite form_updates_on_app.
      destruct (decide (q = p)) as [->|Hq].
      * rewrite (Habsent p xref Hp).
        pose proof (form_updates_on_le p xref l1).
        pose proof (page_events_once _ _ xref H1). lia.
      * rewrite (page_events_other_page _ _ q xref H1 Hq). by apply Honce.
    + intros q xref data Hin. apply in_app_iff in Hin as [Hin|Hin].
      * by eapply page_events_data.
      * by eapply Hdata.
Qed.

End RunLog.

Section FormLoop.
Context (U : Unicode) (watermark_list : list text).

Lemma form_step_effect page_num st xref_num :
  form_step U watermark_list page_num st xref_num
  = match objects (doc st) !! xref_num with
    | Some o =>
        match form_edit U watermark_list o with
        | Some data =>
            emit st {| objects := <[xref_num := with_stream o data]> (objects (doc st));
                       pages := pages (doc st) |}
                 (UpdatedForm page_num xref_num data)
        | None => st
        end
    | None => st
    end.
Proof.
  unfold form_step, form_edit.
  destruct (objects (doc st) !! xref_num) as [o|] eqn:Ho; [|reflexivity].
  destruct (_ && _); [|reflexivity].
  destruct (obj_stream o) as [[|b bs]|] eqn:Hs; try reflexivity.
  cbv zeta.
  destruct (any_in _ (lower U (latin1_decode (b :: bs)))); [|reflexivity].
  rewrite andb_true_l.
  unfold process_form_xobject, xref_stream. rewrite Ho. cbn [mbind option_bind].
  rewrite Hs. cbv zeta.
  destruct (any_in _ (lower U (utf8_decode_ignore (b :: bs)))); [|reflexivity].
  cbn [negb].
  destruct (edited_stream U _ (b :: bs)) as [data|]; [|reflexivity].
  unfold update_stream. rewrite Ho, Hs. reflexivity.
Qed.

Lemma form_update_events_ext page_num objs objs' xrefs :
  (forall x, x ∈ xrefs -> objs' !! x = objs !! x) ->
  form_update_events U watermark_list page_num objs' xrefs
  = form_update_events U watermark_list page_num objs xrefs.
Proof.
  unfold form_update_events.
  induction xrefs as [|x xrefs IH]; intros H; [reflexivity|].
  cbn [omap list_omap]. rewrite (H x) by left.
  rewrite IH by (intros y Hy; apply H; by right). reflexivity.
Qed.

(** The loop through numbers that do not repeat: every object is judged
    as it was before the loop. *)
Lemma form_loop_effect page_num xrefs :
  NoDup xrefs -> forall st,
  log (foldl (form_step U watermark_list page_num) st xrefs)
  = log st ++ form_update_events U watermark_list page_num (objects (doc st)) xrefs
  /\ pages (doc (foldl (form_step U watermark_list page_num) st xrefs)) = pages (doc st)
  /\ (forall x, x ∈ xrefs ->
        objects (doc (foldl (form_step U watermark_list page_num) st xrefs)) !! x
        = edit_object U watermark_list <$> objects (doc st) !! x)
  /\ (forall x, x ∉ xrefs ->
        objects (doc (foldl (form_step U watermark_list page_num) st xrefs)) !! x
        = objects (doc st) !! x).
Proof.
  induction 1 as [|x xrefs Hx Hnd IH]; intros st.
  - cbn [foldl]. split; [by rewrite app_nil_r|]. split; [done|].
    split; [|done]. intros x Hx. by apply elem_of_nil in Hx.
  - cbn [foldl].
    destruct (IH (form_step U watermark_list page_num st x))
      as (Hlog & Hpages & Hin & Hout).
    assert (log (form_step U watermark_list page_num st x)
            = log st ++ form_update_events U watermark_list page_num (objects (doc st)) [x]
            /\ pages (doc (form_step U watermark_list page_num st x)) = pages (doc st)
            /\ objects (doc (form_step U watermark_list page_num st x)) !! x
               = edit_object U watermark_list <$> objects (doc st) !! x
            /\ (forall y, y <> x ->
                  objects (doc (form_step U watermark_list page_num st x)) !! y
                  = objects (doc st) !! y)) as (Hlog1 & Hpages1 & Hx1 & Hy1).
    { rewrite form_step_effect. unfold form_update_events.
      cbn [omap list_omap].
      destruct (objects (doc st) !! x) as [o|] eqn:Ho; cbn [mbind option_bind].
      - assert (edit_object U watermark_list <$> Some o
                = Some (edit_object U watermark_list o)) as -> by reflexivity.
        unfold edit_object.
        destruct (form_edit U watermark_list o) as [data|] eqn:He;
          cbn [fmap option_fmap option_map emit doc log objects pages].
        + repeat split; try done.
          * apply list_lookup_insert_eq. by eapply lookup_lt_Some.
          * intros y Hy. by apply list_lookup_insert_ne.
        + rewrite app_nil_r. by repeat split.
      - rewrite app_nil_r. by repeat split. }
    split; [|split; [|split]].
    + rewrite Hlog, Hlog1, <- app_assoc. f_equal.
      change (x :: xrefs) with ([x] ++ xrefs).
      unfold form_update_events at 3. rewrite omap_app.
      fold (form_update_events U watermark_list page_num (objects (doc st)) [x]).
      fold (form_update_events U watermark_list page_num (objects (doc st)) xrefs).
      f_equal. apply form_update_events_ext.
      intros y Hy. apply Hy1. intros ->. contradiction.
    + by rewrite Hpages.
    + intros y Hy. apply elem_of_cons in Hy as [->|Hy].
      * by rewrite (Hout x Hx).
      * rewrite (Hin y Hy). f_equal. apply Hy1. intros ->. contradiction.
    + intros y Hy. apply not_elem_of_cons in Hy as [Hne Hy].
      rewrite (Hout y Hy). by apply Hy1.
Qed.

End FormLoop.

Lemma processed_page_log U F watermark_list st page_num d b bs :
  watermark_list <> [] ->
  page_has_watermark U F watermark_list (doc st) page_num = true ->
  clean_contents F (doc (delete_annots U F watermark_list st page_num)) page_num
  = Some d ->
  count_instances F watermark_list d page_num <> 0%nat ->
  read_contents F d page_num = Some (b :: bs) ->
  exists after,
    log (process_page U F watermark_list st page_num)
    = log (delete_annots U F watermark_list st page_num)
      ++ form_update_events U watermark_list page_num (objects d)
           (seq 1 (Nat.pred (xref_length d)))
      ++ after
    /\ no_form_update after.
Proof.
  intros Hwl Hgate Hclean Hcount Hread. unfold process_page.
  destruct watermark_list as [|w ws] eqn:Ewl; [done|].
  rewrite <- Ewl in *. clear Ewl w ws Hwl.
  rewrite Hgate. cbn [negb]. cbv zeta. rewrite Hclean.
  cbn [set_doc doc].
  apply Nat.eqb_neq in Hcount. rewrite Hcount, Hread.
  set (st1 := set_doc (delete_annots U F watermark_list st page_num) d).
  change (doc st1) with d.
  destruct (form_loop_effect U watermark_list page_num
              (seq 1 (Nat.pred (xref_length d))) (NoDup_seq _ _) st1)
    as (Hlog & _).
  change (log st1) with (log (delete_annots U F watermark_list st page_num)) in Hlog.
  change (doc st1) with d in Hlog.
  set (st2 := foldl (form_step U watermark_list page_num) st1
                    (seq 1 (Nat.pred (xref_length d)))) in *.
  clearbody st2.
  assert (exists after,
            log st2
            = log (delete_annots U F watermark_list st page_num)
              ++ form_update_events U watermark_list page_num (objects d)
                   (seq 1 (Nat.pred (xref_length d)))
              ++ after
            /\ no_form_update after) as Hstay.
  { exists []. rewrite app_nil_r. split; [exact Hlog | constructor]. }
  destruct (edited_stream U _ (b :: bs)) as [data|]; [|exact Hstay].
  destruct (pages (doc st2) !! page_num ≫= _) as [xref|]; [|exact Hstay].
  destruct (update_contents (doc st2) xref data) as [d'|]; [|exact Hstay].
  exists [UpdatedContents page_num xref data]. cbn [emit log].
  rewrite Hlog, <- app_assoc. split; [reflexivity|]. by repeat constructor.
Qed.

(** Whatever the library does, a form object that the clean-up of a
    processed page has left with a needle in a stream that the passes
    change is updated for that page. *)
Lemma needle_bearing_form_is_updated U F watermark_list st page_num d b bs xref o data :
  watermark_list <> [] ->
  page_has_watermark U F watermark_list (doc st) page_num = true ->
  clean_contents F (doc (delete_annots U F watermark_list st page_num)) page_num
  = Some d ->
  count_instances F watermark_list d page_num <> 0%nat ->
  read_contents F d page_num = Some (b :: bs) ->
  xref <> 0%nat -> objects d !! xref = Some o ->
  form_edit U watermark_list o = Some data ->
  UpdatedForm page_num xref data ∈ log (process_page U F watermark_list st page_num).
Proof.
  intros Hwl Hgate Hclean Hcount Hread Hx Ho Hedit.
  destruct (processed_page_log U F watermark_list st page_num d b bs
              Hwl Hgate Hclean Hcount Hread) as (after & -> & _).
  apply elem_of_app. right. apply elem_of_app. left.
  unfold form_update_events. apply list_elem_of_omap. exists xref. split.
  - apply elem_of_seq. apply lookup_lt_Some in Ho. unfold xref_length. lia.
  - rewrite Ho. cbn [mbind option_bind]. by rewrite Hedit.
Qed.

(** C2, as the script has it.  The script keeps no record of the form
    objects it has visited.  Every page that gets as far as its content
    stream, whatever was done for the pages before it, goes through all
    the objects of the file as the clean-up of the page has left them, and
    for every form object whose stream holds a needle and is changed by
    the five passes run with the complete needle list it writes the
    outcome back and records one update, in the order of the object
    numbers; no other update of a form object is made for the page, and
    the loop leaves every other object as it was.  So in a whole run a
    form object is updated at most once for each page, and at most as many
    times as the document has pages. *)
Theorem every_processed_page_rewrites_the_form_objects U F watermark_list :
  (forall st page_num xref,
     objects (doc (foldl (form_step U watermark_list page_num) st
                         (seq 1 (Nat.pred (xref_length (doc st)))))) !! xref
     = if decide (xref = 0%nat) then objects (doc st) !! xref
       else edit_object U watermark_list <$> objects (doc st) !! xref)
  /\ (forall st page_num d b bs,
     watermark_list <> [] ->
     page_has_watermark U F watermark_list (doc st) page_num = true ->
     clean_contents F (doc (delete_annots U F watermark_list st page_num)) page_num
     = Some d ->
     count_instances F watermark_list d page_num <> 0%nat ->
     read_contents F d page_num = Some (b :: bs) ->
     exists after,
       log (process_page U F watermark_list st page_num)
       = log (delete_annots U F watermark_list st page_num)
         ++ form_update_events U watermark_list page_num (objects d)
              (seq 1 (Nat.pred (xref_length d)))
         ++ after
       /\ no_form_update after)
  /\ (forall d page_num xref,
        (form_updates_on page_num xref
           (log (remove_watermark_pymupdf U F watermark_list d)) <= 1)%nat)
  /\ (forall d xref,
        (form_updates xref (log (remove_watermark_pymupdf U F watermark_list d))
         <= length (pages d))%nat).
Proof.
  split; [|split; [|split]].
  - intros st page_num xref.
    destruct (form_loop_effect U watermark_list page_num
                (seq 1 (Nat.pred (xref_length (doc st)))) (NoDup_seq _ _) st)
      as (_ & _ & Hin & Hout).
    destruct (decide (xref = 0%nat)) as [->|Hx].
    + apply Hout. rewrite elem_of_seq. lia.
    + destruct (decide (xref < xref_length (doc st))%nat) as [Hlt|Hge].
      * apply Hin. rewrite elem_of_seq. lia.
      * rewrite Hout by (rewrite elem_of_seq; lia).
        unfold xref_length in Hge.
        by rewrite lookup_ge_None_2 by lia.
  - intros st page_num d b bs. apply processed_page_log.
  - intros d page_num xref. unfold remove_watermark_pymupdf.
    destruct (page_loop_log U F watermark_list (seq 0 (length (pages d)))
                {| doc := d; log := [] |})
      as (l & E & _ & _ & Honce & _).
    simpl in E. rewrite E. apply Honce, seq_NoDup.
  - intros d xref. unfold remove_watermark_pymupdf.
    destruct (page_loop_log U F watermark_list (seq 0 (length (pages d)))
                {| doc := d; log := [] |})
      as (l & E & Hcount & _).
    simpl in E. rewrite E. specialize (Hcount xref).
    by rewrite length_seq in Hcount.
Qed.

Lemma every_processed_page_rewrites_the_form_objects_witness :
  exists after,
    log (process_page ascii_only (unreached_form_fitz ascii_only) [T "DRAFT"]
           {| doc := unreached_form_doc; log := [] |} 0)
    = log (delete_annots ascii_only (unreached_form_fitz ascii_only) [T "DRAFT"]
             {| doc := unreached_form_doc; log := [] |} 0)
      ++ form_update_events ascii_only [T "DRAFT"] 0 (objects unreached_form_doc)
           (seq 1 (Nat.pred (xref_length unreached_form_doc)))
      ++ after
    /\ no_form_update after.
Proof.
  apply (proj1 (proj2 (every_processed_page_rewrites_the_form_objects
                         ascii_only (unreached_form_fitz ascii_only) [T "DRAFT"]))
           {| doc := unreached_form_doc; log := [] |} 0%nat unreached_form_doc
           x42 (tail stuck_stream)).
  - discriminate.
  - vm_compute. reflexivity.
  - vm_compute. reflexivity.
  - vm_compute. discriminate.
  - vm_compute. reflexivity.
Defined.

(** C2, as the specification has it, fails: form object 5 is drawn by
    pages 2 and 3, and in one run it is updated while page 0 is processed
    and again while page 1 is.  Both pages show a needle in a text of
    their own, which the passes cannot take out, and neither names the
    form object, so that their clean-up does not reach it; the loop over
    the objects of the file does.  The first update takes out the string
    operand that holds [ET] and leaves the text object, the second deletes
    the text object. *)
Lemma form_object_is_edited_for_two_pages :
  log (remove_watermark_pymupdf ascii_only (unreached_form_fitz ascii_only) [T "DRAFT"]
         unreached_form_doc)
  = [UpdatedForm 0 5 (B "q BT /F1 12 Tf  (DRAFT)Tj ET Q"); UpdatedForm 1 5 (B "q  Q")]
  /\ form_updates 5
       (log (remove_watermark_pymupdf ascii_only (unreached_form_fitz ascii_only) [T "DRAFT"]
               unreached_form_doc)) = 2%nat.
Proof. split; vm_compute; reflexivity. Qed.

(** * Further properties of the script *)

(** ** Write-back only shrinks *)

(** X1.  Whatever the bytes of a stream, the bytes written back for it are
    strictly fewer than the bytes read: decoding, the passes and encoding
    never add a byte, and the passes changed the text. *)
Theorem written_stream_is_shorter U wl (stream_bytes written : bytes) :
  edited_stream U wl stream_bytes = Some written ->
  (length written < length stream_bytes)%nat.
Proof.
  unfold edited_stream. intros H. case_bool_decide as Hne; [discriminate|].
  injection H as <-.
  pose proof (utf8_decode_length stream_bytes).
  pose proof (latin1_encode_length
                (rewrite_stream U wl (utf8_decode_ignore stream_bytes))).
  destruct (rewrite_stream_shrinks U wl (utf8_decode_ignore stream_bytes));
    [done | lia].
Qed.

Lemma written_stream_is_shorter_witness :
  (length [xe9] < length (B "BT (draft) Tj ET" ++ [xc3; xa9]))%nat.
Proof.
  apply (written_stream_is_shorter ascii_only [T "draft"]
           (B "BT (draft) Tj ET" ++ [xc3; xa9]) [xe9]).
  vm_compute. reflexivity.
Defined.

(** ** Streams and operands the passes leave alone *)

Lemma re_sub_from_steps m remove pre s :
  (forall k, (k < length pre)%nat -> m (drop k (pre ++ s)) = None) ->
  re_sub_from m remove 0 true (pre ++ s) = pre ++ re_sub_from m remove 0 true s.
Proof.
  induction pre as [|c pre IH]; intros H; [reflexivity|].
  assert (m (c :: pre ++ s) = None) as H0 by (apply (H 0%nat); simpl; lia).
  cbn [app re_sub_from]. rewrite H0. f_equal.
  apply IH. intros k Hk. apply (H (S k)). simpl. lia.
Qed.

Lemma re_sub_no_match m remove s :
  (forall k, m (drop k s) = None) -> re_sub m remove s = s.
Proof.
  intros H. unfold re_sub.
  rewrite <- (app_nil_r s) at 1. rewrite re_sub_from_steps.
  - simpl. by rewrite app_nil_r.
  - intros k _. rewrite app_nil_r. apply H.
Qed.

Lemma match_operand_other_head U open close operator s :
  (forall c, head s = Some c -> c <> open) ->
  match_operand U open close operator s = None.
Proof.
  intros H. destruct s as [|c s]; [reflexivity|]. simpl.
  destruct (N.eqb_spec c open) as [->|_]; [|reflexivity].
  by destruct (H open).
Qed.

Lemma Forall_head_drop {A} (P : A -> Prop) (s : list A) k c :
  Forall P s -> head (drop k s) = Some c -> P c.
Proof.
  intros Hs Hc. apply (Forall_drop _ k) in Hs.
  destruct (drop k s) as [|x r]; [discriminate|].
  injection Hc as ->. by inversion Hs.
Qed.

Lemma contains_false_drop p s k :
  contains p s = false -> starts_with p (drop k s) = false.
Proof.
  revert s. induction k as [|k IH]; intros s H.
  - rewrite drop_0. destruct s; simpl in H; by apply orb_false_iff in H as [? _].
  - destruct s as [|c s]; simpl in *.
    + by apply orb_false_iff in H as [? _].
    + apply IH. by apply orb_false_iff in H as [_ ?].
Qed.

Lemma rewrite_stream_without_text U wl (s : text) :
  Forall (fun c => c <> LPAREN /\ c <> LBRACKET) s ->
  contains (T "BT") s = false ->
  rewrite_stream U wl s = s.
Proof.
  intros Hs Hbt.
  assert (forall operator remove,
            re_sub (match_operand U LPAREN RPAREN operator) remove s = s) as Hp.
  { intros. apply re_sub_no_match. intros k. apply match_operand_other_head.
    intros c Hc. by destruct (Forall_head_drop _ _ _ _ Hs Hc). }
  assert (forall operator remove,
            re_sub (match_operand U LBRACKET RBRACKET operator) remove s = s) as Hb.
  { intros. apply re_sub_no_match. intros k. apply match_operand_other_head.
    intros c Hc. by destruct (Forall_head_drop _ _ _ _ Hs Hc). }
  assert (forall remove, re_sub match_text_object remove s = s) as Ht.
  { intros. apply re_sub_no_match. intros k. unfold match_text_object.
    by rewrite (contains_false_drop _ _ k Hbt). }
  unfold rewrite_stream, apply_passes, passes. cbn [foldl fst snd].
  unfold match_Tj, match_TJ, match_quote, match_dquote.
  by rewrite Ht, Hp, Hb, !Hp.
Qed.

(** X2.  A stream whose text holds no opening parenthesis, no opening
    bracket and nowhere the letters [BT] is never written back, whatever
    the needles: no pattern of the five passes can match in it. *)
Theorem stream_without_text_is_never_written U wl (stream_bytes : bytes) :
  Forall (fun c => c <> LPAREN /\ c <> LBRACKET) (utf8_decode_ignore stream_bytes) ->
  contains (T "BT") (utf8_decode_ignore stream_bytes) = false ->
  edited_stream U wl stream_bytes = None.
Proof.
  intros Hs Hbt. unfold edited_stream.
  rewrite rewrite_stream_without_text by done. by rewrite bool_decide_eq_true_2.
Qed.

Lemma stream_without_text_is_never_written_witness :
  edited_stream ascii_only [T "draft"; []] (B "q 0.5 g /Im1 Do <6472616674> Q") = None.
Proof.
  apply (stream_without_text_is_never_written ascii_only [T "draft"; []]
           (B "q 0.5 g /Im1 Do <6472616674> Q")).
  - vm_compute. repeat constructor; discriminate.
  - vm_compute. reflexivity.
Defined.

Lemma starts_with_app p s : starts_with p (p ++ s) = true.
Proof. induction p as [|c p IH]; simpl; [done|]. by rewrite N.eqb_refl. Qed.

Lemma re_sub_from_skip m remove keep p s :
  re_sub_from m remove (length p) keep (p ++ s)
  = (if keep then p else []) ++ re_sub_from m remove 0 true s.
Proof.
  induction p as [|c p IH]; simpl.
  - destruct keep; [done|]. by destruct s.
  - rewrite IH. by destruct keep.
Qed.

Lemma match_operand_found U open close operator str ws rest :
  Forall (fun c => c <> close) str ->
  ws <> [] -> Forall (fun c => is_space U c = true) ws ->
  (exists c, head operator = Some c /\ is_space U c = false) ->
  word_boundary U (List.last operator 0) (head rest) = true ->
  match_operand U open close operator (open :: str ++ close :: ws ++ operator ++ rest)
  = Some (str, (1 + length str + 1 + length ws + length operator)%nat).
Proof.
  intros Hstr Hne Hws (c & Hc & Hsp) Hb.
  destruct operator as [|c' operator']; [discriminate|]. injection Hc as ->.
  unfold match_operand. rewrite N.eqb_refl.
  assert (run (fun x => negb (x =? close)) (str ++ close :: ws ++ (c :: operator') ++ rest)
          = str) as ->.
  { apply run_stops; [|by rewrite N.eqb_refl].
    eapply Forall_impl; [exact Hstr|]. intros x Hx. simpl.
    by apply negb_true_iff, N.eqb_neq. }
  rewrite drop_app_length.
  assert (run (is_space U) (ws ++ (c :: operator') ++ rest) = ws) as ->
    by (by apply run_stops).
  rewrite drop_app_length, starts_with_app, drop_app_length, Hb.
  destruct ws; [done|]. reflexivity.
Qed.

Lemma replace_from_absent old new (s : text) :
  Forall (fun c => c <> BACKSLASH) s ->
  replace_from (BACKSLASH :: old) new 0 s = s.
Proof.
  induction 1 as [|c s Hc _ IH]; [reflexivity|].
  cbn [replace_from starts_with].
  apply not_eq_sym, N.eqb_neq in Hc. rewrite Hc. cbn [andb]. by rewrite IH.
Qed.

Lemma should_remove_inline_plain U wl (str : text) :
  Forall (fun c => c <> BACKSLASH) str ->
  should_remove_inline U wl str = any_in wl (lower U str).
Proof.
  intros H. unfold should_remove_inline, str_replace.
  by rewrite !(replace_from_absent _ _ str H).
Qed.

(** X3.  A string operand without backslash or closing parenthesis,
    followed by white space and [Tj], is judged on its own text by the
    second pass: the invocation is deleted when the lowercased string
    contains a needle and copied when it contains none, and the pass goes
    on behind it.  ([Tj] must end at a word boundary.) *)
Theorem string_shown_by_Tj_is_judged_alone U wl (str ws rest : text) :
  Forall copied str ->
  ws <> [] -> Forall (fun c => is_space U c = true) ws ->
  (forall c, head rest = Some c -> is_word U c = false) ->
  re_sub (match_Tj U) (should_remove_inline U wl)
         (LPAREN :: str ++ RPAREN :: ws ++ T "Tj" ++ rest)
  = (if any_in wl (lower U str) then []
     else LPAREN :: str ++ RPAREN :: ws ++ T "Tj")
    ++ re_sub (match_Tj U) (should_remove_inline U wl) rest.
Proof.
  intros Hstr Hne Hws Hrest.
  assert (Forall (fun c => c <> RPAREN) str) as Hr
    by (eapply Forall_impl; [exact Hstr | by intros c [_ ?]]).
  assert (Forall (fun c => c <> BACKSLASH) str) as Hb
    by (eapply Forall_impl; [exact Hstr | by intros c [? _]]).
  unfold re_sub, match_Tj.
  cbn [re_sub_from].
  rewrite (match_operand_found U LPAREN RPAREN (T "Tj") str ws rest Hr Hne Hws).
  - cbn [Nat.add]. rewrite should_remove_inline_plain by done.
    replace (str ++ RPAREN :: ws ++ T "Tj" ++ rest)
      with ((str ++ RPAREN :: ws ++ T "Tj") ++ rest)
      by (by rewrite <- app_assoc, <- app_comm_cons, <- app_assoc).
    replace (length str + 1 + length ws + length (T "Tj"))%nat
      with (length (str ++ RPAREN :: ws ++ T "Tj"))
      by (rewrite length_app; cbn [length]; rewrite length_app; lia).
    rewrite re_sub_from_skip.
    by destruct (any_in wl (lower U str)).
  - exists 84. split; reflexivity.
  - unfold word_boundary. change (is_word U (List.last (T "Tj") 0)) with true.
    destruct rest as [|c rest']; [reflexivity|]. simpl.
    by rewrite (Hrest c eq_refl).
Qed.

Lemma string_shown_by_Tj_is_judged_alone_witness :
  re_sub (match_Tj ascii_only) (should_remove_inline ascii_only [T "secret"])
         (LPAREN :: T "SECRET" ++ RPAREN :: T " " ++ T "Tj" ++ T " ET")
  = (if any_in [T "secret"] (lower ascii_only (T "SECRET")) then []
     else LPAREN :: T "SECRET" ++ RPAREN :: T " " ++ T "Tj")
    ++ re_sub (match_Tj ascii_only) (should_remove_inline ascii_only [T "secret"]) (T " ET").
Proof.
  apply (string_shown_by_Tj_is_judged_alone ascii_only [T "secret"]
           (T "SECRET") (T " ") (T " ET")).
  - repeat constructor; discriminate.
  - discriminate.
  - repeat constructor.
  - intros c Hc. injection Hc as <-. reflexivity.
Defined.

Lemma match_operand_unspaced U open close operator x str c rest :
  Forall (fun y => y <> close) str -> is_space U c = false ->
  match_operand U open close operator (x :: str ++ close :: c :: rest) = None.
Proof.
  intros Hstr Hc. unfold match_operand.
  destruct (x =? open); [|reflexivity].
  assert (run (fun y => negb (y =? close)) (str ++ close :: c :: rest) = str) as ->.
  { apply run_stops; [|by rewrite N.eqb_refl].
    eapply Forall_impl; [exact Hstr|]. intros y Hy. simpl.
    by apply negb_true_iff, N.eqb_neq. }
  rewrite drop_app_length. cbn [run]. rewrite Hc. reflexivity.
Qed.

Lemma match_operand_unspaced_inside U open close operator str c rest :
  open <> close ->
  Forall (fun y => y <> close) str -> is_space U c = false ->
  forall k, (k <= length str)%nat ->
    match_operand U open close operator (drop k (str ++ close :: c :: rest)) = None.
Proof.
  intros Hoc Hstr Hc. induction Hstr as [|x str Hx Hstr IH]; intros k Hk.
  - simpl in Hk. replace k with 0%nat by lia. cbn [app drop].
    apply match_operand_other_head. intros y Hy. injection Hy as <-. congruence.
  - destruct k as [|k]; cbn [app drop].
    + by apply match_operand_unspaced.
    + apply IH. simpl in Hk. lia.
Qed.

(** X4.  A string operand whose closing parenthesis is followed at once by
    a character that is not white space, as in [(text)Tj], is copied by the
    passes for [Tj], ['] and the double quote, whatever the needles say: the
    patterns ask for white space between operand and operator. *)
Theorem operand_without_white_space_is_kept U operator remove (str rest : text) c :
  Forall (fun y => y <> RPAREN) str -> is_space U c = false ->
  re_sub (match_operand U LPAREN RPAREN operator) remove
         (LPAREN :: str ++ RPAREN :: c :: rest)
  = LPAREN :: str ++ RPAREN
    :: re_sub (match_operand U LPAREN RPAREN operator) remove (c :: rest).
Proof.
  intros Hstr Hc. unfold re_sub.
  replace (LPAREN :: str ++ RPAREN :: c :: rest)
    with ((LPAREN :: str ++ [RPAREN]) ++ c :: rest)
    by (by rewrite <- app_comm_cons, <- app_assoc).
  rewrite re_sub_from_steps.
  - by rewrite <- app_comm_cons, <- app_assoc.
  - intros k Hk.
    replace ((LPAREN :: str ++ [RPAREN]) ++ c :: rest)
      with ((LPAREN :: str) ++ RPAREN :: c :: rest)
      by (by rewrite <- !app_comm_cons, <- app_assoc).
    apply match_operand_unspaced_inside; [discriminate| |done|].
    + constructor; [discriminate | exact Hstr].
    + simpl in Hk. rewrite length_app in Hk. simpl in *. lia.
Qed.

Lemma operand_without_white_space_is_kept_witness :
  re_sub (match_operand ascii_only LPAREN RPAREN (T "Tj")) (fun _ => true)
         (LPAREN :: T "DRAFT" ++ RPAREN :: 84 :: T "j ET")
  = LPAREN :: T "DRAFT" ++ RPAREN
    :: re_sub (match_operand ascii_only LPAREN RPAREN (T "Tj")) (fun _ => true)
              (84 :: T "j ET").
Proof.
  apply (operand_without_white_space_is_kept ascii_only (T "Tj") (fun _ => true)
           (T "DRAFT") (T "j ET") 84).
  - repeat constructor; discriminate.
  - reflexivity.
Defined.

(** ** Where a text object ends *)

Lemma starts_with_split p s : starts_with p s = true -> s = p ++ drop (length p) s.
Proof.
  revert s. induction p as [|a p IH]; intros s H; [by rewrite drop_0|].
  destruct s as [|b s]; [discriminate|]. simpl in *.
  apply andb_true_iff in H as [Hab Hp]. apply N.eqb_eq in Hab as ->.
  f_equal. by apply IH.
Qed.

Lemma starts_with_take p s n :
  starts_with p (take n s) = true -> starts_with p s = true.
Proof.
  revert s n. induction p as [|a p IH]; intros s n H; [reflexivity|].
  destruct s as [|b s]; [by rewrite take_nil in H|].
  destruct n as [|n]; [discriminate|]. simpl in *.
  apply andb_true_iff in H as [-> Hp]. simpl. by apply (IH s n).
Qed.

Lemma find_sub_split p s k :
  find_sub p s = Some k ->
  s = take k s ++ p ++ drop (k + length p) s /\ length (take k s) = k.
Proof.
  revert k. induction s as [|c s IH]; intros k; simpl.
  - destruct (starts_with p []) eqn:E; [|discriminate].
    intros [= <-]. split; [|reflexivity]. simpl. by apply starts_with_split in E.
  - destruct (starts_with p (c :: s)) eqn:E.
    + intros [= <-]. split; [|reflexivity]. by apply starts_with_split in E.
    + destruct (find_sub p s) as [k'|]; [|discriminate]. simpl.
      intros [= <-]. destruct (IH k' eq_refl) as [E1 E2]. simpl.
      split; [by rewrite <- E1 | by rewrite E2].
Qed.

Lemma find_sub_first p s k :
  p <> [] -> find_sub p s = Some k -> contains p (take k s) = false.
Proof.
  intros Hp. revert k. induction s as [|c s IH]; intros k; simpl.
  - destruct (starts_with p []); [|discriminate]. intros [= <-].
    by destruct p.
  - destruct (starts_with p (c :: s)) eqn:E.
    + intros [= <-]. by destruct p.
    + destruct (find_sub p s) as [k'|]; [|discriminate]. simpl.
      intros [= <-]. simpl. rewrite (IH k' eq_refl), orb_false_r.
      destruct (starts_with p (c :: take k' s)) eqn:E'; [|reflexivity].
      change (c :: take k' s) with (take (S k') (c :: s)) in E'.
      apply starts_with_take in E'. congruence.
Qed.

(** X5.  The block judged by the first pass ends at the first [ET] behind
    the opening [BT], wherever that stands: the match is [BT], the block,
    [ET], and the block never holds the letters [ET].  So a string such as
    [(SECRET)] inside a text object cuts the block short. *)
Theorem text_object_ends_at_first_ET (s block : text) (n : nat) :
  match_text_object s = Some (block, n) ->
  s = T "BT" ++ block ++ T "ET" ++ drop n s
  /\ n = (length block + 4)%nat
  /\ contains (T "ET") block = false.
Proof.
  unfold match_text_object.
  destruct (starts_with (T "BT") s) eqn:Hbt; [|discriminate].
  destruct (find_sub (T "ET") (drop 2 s)) as [k|] eqn:Hk; [|discriminate].
  intros [= <- <-].
  destruct (find_sub_split _ _ _ Hk) as [Hsplit Hlen].
  split; [|split].
  - apply starts_with_split in Hbt. rewrite Hbt at 1.
    change (drop (length (T "BT")) s) with (drop 2 s).
    rewrite Hsplit at 1. do 3 f_equal.
    rewrite drop_drop. reflexivity.
  - rewrite Hlen. lia.
  - by apply find_sub_first.
Qed.

Lemma text_object_ends_at_first_ET_witness :
  T "BT /F1 12 Tf (SECRET DRAFT) Tj ET"
  = T "BT" ++ T " /F1 12 Tf (SECR" ++ T "ET" ++ drop 20 (T "BT /F1 12 Tf (SECRET DRAFT) Tj ET")
  /\ 20%nat = (length (T " /F1 12 Tf (SECR") + 4)%nat
  /\ contains (T "ET") (T " /F1 12 Tf (SECR") = false.
Proof.
  apply (text_object_ends_at_first_ET (T "BT /F1 12 Tf (SECRET DRAFT) Tj ET")
           (T " /F1 12 Tf (SECR") 20).
  vm_compute. reflexivity.
Defined.

(** ** An open string at the end of a stream *)













Section OpenString.
Context (U : Unicode) (tail : text).
Hypothesis tail_open : Forall (fun c => c <> RPAREN /\ c <> RBRACKET) tail.
Hypothesis tail_without_ET : contains (T "ET") tail = false.





Section Operand.
Context (open close : N) (operator : text).
Hypothesis operator_plain : Forall (fun c => c <> LPAREN) operator.
Hypothesis open_string_plain : Forall (fun c => c <> close) (LPAREN :: tail).





End Operand.


End OpenString.




(** ** An empty needle *)

Lemma any_in_empty_needle wl hay : In [] wl -> any_in wl hay = true.
Proof.
  intros H. unfold any_in. apply existsb_exists. exists []. split; [done|].
  by destruct hay.
Qed.

Lemma empty_needle_lowered U wl : In [] wl -> In [] (watermark_lowers U wl).
Proof.
  intros H. unfold watermark_lowers.
  change (@nil N) with (lower U []) at 1. by apply in_map.
Qed.

(** X6.  The empty string as a needle (as [--remove-string ""] gives it)
    is found everywhere: every page passes the gate, every annotation of
    such a page is marked for deletion, and every text object, string
    operand and array that a pattern finds is judged a watermark. *)
Theorem empty_needle_matches_everything U F watermark_list :
  In [] watermark_list ->
  (forall d page_num, page_has_watermark U F watermark_list d page_num = true)
  /\ (forall a, annot_has_watermark U watermark_list a = true)
  /\ (forall block,
        should_remove_text_object U (watermark_lowers U watermark_list) block = true)
  /\ (forall text_str,
        should_remove_inline U (watermark_lowers U watermark_list) text_str = true)
  /\ (forall array,
        should_remove_tj_array U (watermark_lowers U watermark_list) array = true).
Proof.
  intros H. pose proof (empty_needle_lowered U _ H) as Hl.
  repeat split; intros; try (by apply any_in_empty_needle).
  unfold annot_has_watermark. apply existsb_exists. exists []. split; [done|].
  by destruct (lower U (annot_content a)).
Qed.

Lemma empty_needle_matches_everything_witness :
  (forall d page_num,
     page_has_watermark ascii_only (plain_fitz ascii_only) [T "draft"; []] d page_num = true)
  /\ (forall a, annot_has_watermark ascii_only [T "draft"; []] a = true)
  /\ (forall block,
        should_remove_text_object ascii_only
          (watermark_lowers ascii_only [T "draft"; []]) block = true)
  /\ (forall text_str,
        should_remove_inline ascii_only
          (watermark_lowers ascii_only [T "draft"; []]) text_str = true)
  /\ (forall array,
        should_remove_tj_array ascii_only
          (watermark_lowers ascii_only [T "draft"; []]) array = true).
Proof.
  apply (empty_needle_matches_everything ascii_only (plain_fitz ascii_only)
           [T "draft"; []]).
  right. by left.
Defined.

(** ** Form objects in the document *)

Lemma update_stream_result d xref data compress d' :
  update_stream d xref data compress = Some d' ->
  exists o, objects d !! xref = Some o
    /\ objects d' = <[xref := {| obj_type := obj_type o;
                                 obj_subtype := obj_subtype o;
                                 obj_stream := Some data |}]> (objects d)
    /\ pages d' = pages d.
Proof.
  unfold update_stream.
  destruct (objects d !! xref) as [o|] eqn:Ho; [|discriminate].
  destruct (obj_stream o); [|discriminate].
  intros [= <-]. by exists o.
Qed.

Lemma update_stream_reads_back d xref data compress d' :
  update_stream d xref data compress = Some d' ->
  xref_stream d' xref = Some data
  /\ pages d' = pages d
  /\ forall y, y <> xref -> objects d' !! y = objects d !! y.
Proof.
  intros H. destruct (update_stream_result _ _ _ _ _ H) as (o & Ho & Hobjs & Hp).
  unfold xref_stream. rewrite Hobjs. split; [|split; [done|]].
  - rewrite list_lookup_insert_eq; [done|]. by eapply lookup_lt_Some.
  - intros y Hy. by rewrite list_lookup_insert_ne.
Qed.

Lemma process_form_xobject_cases U watermark_list st xobj_xref page_num st' (b : bool) :
  process_form_xobject U watermark_list st xobj_xref page_num = (st', b) ->
  if b then
    exists old data,
      xref_stream (doc st) xobj_xref = Some old
      /\ any_in (watermark_lowers U watermark_list)
                (lower U (utf8_decode_ignore old)) = true
      /\ edited_stream U (watermark_lowers U watermark_list) old = Some data
      /\ xref_stream (doc st') xobj_xref = Some data
      /\ log st' = log st ++ [UpdatedForm page_num xobj_xref data]
      /\ pages (doc st') = pages (doc st)
      /\ forall y, y <> xobj_xref -> objects (doc st') !! y = objects (doc st) !! y
  else st' = st.
Proof.
  unfold process_form_xobject.
  destruct (xref_stream (doc st) xobj_xref) as [[|x old]|] eqn:Hold;
    try (intros [= <- <-]; reflexivity).
  destruct (any_in _ _) eqn:Hany; cbn [negb];
    [|intros [= <- <-]; reflexivity].
  destruct (edited_stream _ _ _) as [data|] eqn:Hed;
    [|intros [= <- <-]; reflexivity].
  assert (forall d compress,
            update_stream (doc st) xobj_xref data compress = Some d ->
            exists old0 data0,
              Some (x :: old) = Some old0
              /\ any_in (watermark_lowers U watermark_list)
                        (lower U (utf8_decode_ignore old0)) = true
              /\ edited_stream U (watermark_lowers U watermark_list) old0 = Some data0
              /\ xref_stream d xobj_xref = Some data0
              /\ log st ++ [UpdatedForm page_num xobj_xref data]
                 = log st ++ [UpdatedForm page_num xobj_xref data0]
              /\ pages d = pages (doc st)
              /\ forall y, y <> xobj_xref -> objects d !! y = objects (doc st) !! y)
    as Hdone.
  { intros d compress Hu.
    destruct (update_stream_reads_back _ _ _ _ _ Hu) as (H1 & H2 & H3).
    by exists (x :: old), data. }
  destruct (update_stream _ _ _ (Some false)) as [d|] eqn:Hu1.
  { intros [= <- <-]. by eapply Hdone. }
  destruct (update_stream _ _ _ (Some true)) as [d|] eqn:Hu2.
  { intros [= <- <-]. by eapply Hdone. }
  intros [= <- <-]. reflexivity.
Qed.

(** X7.  What [process_form_xobject] returns tells what it did.  When it
    returns [True], the stream of the object held a needle, the passes
    changed it, the object now holds the edited bytes, one update is
    recorded, and the pages and every other object are as before.  When it
    returns [False], nothing at all has changed. *)
Theorem process_form_xobject_result U watermark_list st xobj_xref page_num st' (b : bool) :
  process_form_xobject U watermark_list st xobj_xref page_num = (st', b) ->
  if b then
    exists old data,
      xref_stream (doc st) xobj_xref = Some old
      /\ any_in (watermark_lowers U watermark_list)
                (lower U (utf8_decode_ignore old)) = true
      /\ edited_stream U (watermark_lowers U watermark_list) old = Some data
      /\ xref_stream (doc st') xobj_xref = Some data
      /\ log st' = log st ++ [UpdatedForm page_num xobj_xref data]
      /\ pages (doc st') = pages (doc st)
      /\ forall y, y <> xobj_xref -> objects (doc st') !! y = objects (doc st) !! y
  else st' = st.
Proof. apply process_form_xobject_cases. Qed.

Lemma process_form_xobject_result_witness :
  exists old data,
    xref_stream (shared_form_doc two_runs_stream) 3 = Some old
    /\ any_in (watermark_lowers ascii_only [T "DRAFT"])
              (lower ascii_only (utf8_decode_ignore old)) = true
    /\ edited_stream ascii_only (watermark_lowers ascii_only [T "DRAFT"]) old = Some data
    /\ xref_stream (shared_form_doc (B "BT /F1 12 Tf  (DRAFT)Tj ET")) 3 = Some data
    /\ [UpdatedForm 0 3 (B "BT /F1 12 Tf  (DRAFT)Tj ET")]
       = [] ++ [UpdatedForm 0 3 data]
    /\ pages (shared_form_doc (B "BT /F1 12 Tf  (DRAFT)Tj ET"))
       = pages (shared_form_doc two_runs_stream)
    /\ forall y, y <> 3%nat ->
         objects (shared_form_doc (B "BT /F1 12 Tf  (DRAFT)Tj ET")) !! y
         = objects (shared_form_doc two_runs_stream) !! y.
Proof.
  apply (process_form_xobject_result ascii_only [T "DRAFT"]
           {| doc := shared_form_doc two_runs_stream; log := [] |} 3 0
           {| doc := shared_form_doc (B "BT /F1 12 Tf  (DRAFT)Tj ET");
              log := [UpdatedForm 0 3 (B "BT /F1 12 Tf  (DRAFT)Tj ET")] |} true).
  vm_compute. reflexivity.
Defined.

Lemma same_but_form_streams_refl d : same_but_form_streams d d.
Proof. repeat split. intros xref o Ho. exists o. auto. Qed.

Lemma same_but_form_streams_trans d1 d2 d3 :
  same_but_form_streams d1 d2 -> same_but_form_streams d2 d3 ->
  same_but_form_streams d1 d3.
Proof.
  intros (Hp1 & Hl1 & H1) (Hp2 & Hl2 & H2).
  split; [congruence|]. split; [congruence|].
  intros xref o Ho.
  destruct (H1 _ _ Ho) as (o' & Ho' & Ht & Hs & Hstream).
  destruct (H2 _ _ Ho') as (o'' & Ho'' & Ht' & Hs' & Hstream').
  exists o''. split; [done|]. split; [congruence|]. split; [congruence|].
  destruct Hstream as [E|?]; [|by right].
  destruct Hstream' as [E'|[? ?]]; [left; congruence|].
  right. split; congruence.
Qed.

Lemma form_step_frame U watermark_list page_num st xref_num :
  same_but_form_streams (doc st) (doc (form_step U watermark_list page_num st xref_num)).
Proof.
  unfold form_step.
  destruct (objects (doc st) !! xref_num) as [o|] eqn:Ho;
    [|apply same_but_form_streams_refl].
  destruct (_ && _) eqn:Hform; [|apply same_but_form_streams_refl].
  destruct (obj_stream o) as [[|b bs]|]; try apply same_but_form_streams_refl.
  destruct (any_in _ _); [|apply same_but_form_streams_refl].
  destruct (process_form_xobject U watermark_list st xref_num page_num)
    as [st' r] eqn:Hp.
  pose proof (process_form_xobject_cases _ _ _ _ _ _ _ Hp) as Hr.
  destruct r; [|cbn [fst]; subst st'; apply same_but_form_streams_refl].
  destruct Hr as (old & data & Hold & _ & _ & Hnew & _ & Hpages & Hothers).
  cbn [fst]. split; [done|].
  apply andb_true_iff in Hform as [Ht Hs].
  apply String.eqb_eq in Ht, Hs.
  assert (exists o', objects (doc st') !! xref_num = Some o'
                     /\ obj_type o' = obj_type o /\ obj_subtype o' = obj_subtype o)
    as (o' & Ho' & Ht' & Hs').
  { unfold process_form_xobject in Hp. rewrite Hold in Hp.
    destruct old as [|x old]; [by inversion Hp|].
    destruct (negb _); [by inversion Hp|].
    destruct (edited_stream _ _ _) as [data'|]; [|by inversion Hp].
    assert (forall d compress,
              update_stream (doc st) xref_num data' compress = Some d ->
              exists o', objects d !! xref_num = Some o'
                /\ obj_type o' = obj_type o /\ obj_subtype o' = obj_subtype o) as Hu.
    { intros d compress Hd.
      destruct (update_stream_result _ _ _ _ _ Hd) as (o0 & Ho0 & Hobjs & _).
      rewrite Ho in Ho0. injection Ho0 as <-. rewrite Hobjs.
      eexists. rewrite list_lookup_insert_eq by (by eapply lookup_lt_Some).
      by split. }
    destruct (update_stream _ _ _ (Some false)) as [d|] eqn:Hu1.
    { injection Hp as <-. by eapply Hu. }
    destruct (update_stream _ _ _ (Some true)) as [d|] eqn:Hu2.
    { injection Hp as <-. by eapply Hu. }
    by inversion Hp. }
  split.
  - apply lookup_lt_Some in Ho as Hlt.
    destruct (decide (length (objects (doc st')) = length (objects (doc st))))
      as [E|NE]; [done|]. exfalso.
    destruct (decide (length (objects (doc st')) < length (objects (doc st)))%nat)
      as [L|G].
    + assert (xref_num <> length (objects (doc st')))
        by (apply lookup_lt_Some in Ho'; lia).
      assert (is_Some (objects (doc st) !! length (objects (doc st')))) as [y Hy]
        by (apply lookup_lt_is_Some; lia).
      rewrite <- Hothers in Hy by done.
      apply lookup_lt_Some in Hy. lia.
    + assert (xref_num <> length (objects (doc st))) by lia.
      assert (is_Some (objects (doc st') !! length (objects (doc st)))) as [y Hy]
        by (apply lookup_lt_is_Some; lia).
      rewrite Hothers in Hy by done.
      apply lookup_lt_Some in Hy. lia.
  - intros y oy Hy. destruct (decide (y = xref_num)) as [->|Hne].
    + rewrite Ho in Hy. injection Hy as <-. exists o'.
      split; [done|]. split; [done|]. split; [done|]. by right.
    + exists oy. rewrite Hothers by done. auto.
Qed.

(** X8.  The loop over the objects of the file changes nothing but the
    streams of form objects: the pages, the number of objects, the type and
    subtype of every object and the stream of every object that is not a
    form object are after the loop what they were before it.  The content
    streams of the pages are out of its reach. *)
Theorem form_loop_changes_form_streams_only U watermark_list page_num st xrefs :
  same_but_form_streams
    (doc st) (doc (foldl (form_step U watermark_list page_num) st xrefs)).
Proof.
  revert st. induction xrefs as [|x xrefs IH]; intros st; simpl.
  - apply same_but_form_streams_refl.
  - eapply same_but_form_streams_trans; [apply form_step_frame | apply IH].
Qed.

(** ** Annotations *)




(** ** The fallback *)

Lemma filter_all {A} (l : list A) : List.filter (fun _ => true) l = l.
Proof. induction l as [|x l IH]; simpl; by rewrite ?IH. Qed.

Lemma pypdf_page_without_annots U watermark_list annots :
  pypdf_page U watermark_list (without_annots annots) = Some (without_annots annots).
Proof. by destruct annots as [[|a l]|]. Qed.

Lemma pypdf_written U watermark_list reader_pages written :
  remove_watermark_pypdf U watermark_list reader_pages = Some written ->
  written = map without_annots reader_pages.
Proof.
  revert written. induction reader_pages as [|annots reader_pages IH];
    intros written; simpl.
  - by intros [= <-].
  - destruct (pypdf_page U watermark_list annots) as [page|] eqn:Hpage; [|done].
    destruct (remove_watermark_pypdf U watermark_list reader_pages) as [w|]; [|done].
    intros [= <-]. rewrite (IH w eq_refl). f_equal.
    unfold pypdf_page in Hpage. destruct annots as [[|a l]|]; simpl.
    + by injection Hpage as <-.
    + destruct (pypdf_kept U watermark_list (a :: l)); [|done].
      by injection Hpage as <-.
    + by injection Hpage as <-.
Qed.

Lemma pypdf_rewrites_what_it_wrote U watermark_list reader_pages :
  remove_watermark_pypdf U watermark_list (map without_annots reader_pages)
  = Some (map without_annots reader_pages).
Proof.
  induction reader_pages as [|annots reader_pages IH]; [reflexivity|].
  cbn [map remove_watermark_pypdf].
  by rewrite pypdf_page_without_annots, IH.
Qed.

(** X10.  The fallback returns [True] only when it keeps no annotation.
    When on every page that has annotations all of them hold a needle, the
    pages are written with their annotation entries taken off, an empty
    entry apart; as soon as one page keeps an annotation the function
    returns [False] and writes nothing.  What it has written it writes
    again unchanged. *)
Theorem pypdf_succeeds_only_when_nothing_is_kept U watermark_list reader_pages :
  ((forall annots, Some annots ∈ reader_pages ->
      pypdf_kept U watermark_list annots = []) ->
   remove_watermark_pypdf U watermark_list reader_pages
   = Some (map without_annots reader_pages))
  /\ (forall annots, Some annots ∈ reader_pages ->
        pypdf_kept U watermark_list annots <> [] ->
        remove_watermark_pypdf U watermark_list reader_pages = None)
  /\ (forall written,
        remove_watermark_pypdf U watermark_list reader_pages = Some written ->
        remove_watermark_pypdf U watermark_list written = Some written).
Proof.
  split; [|split].
  - induction reader_pages as [|annots reader_pages IH]; intros Hall; [reflexivity|].
    cbn [map remove_watermark_pypdf].
    rewrite IH by (intros l Hl; apply Hall; by right).
    assert (pypdf_page U watermark_list annots = Some (without_annots annots)) as ->;
      [|reflexivity].
    destruct annots as [[|a l]|]; try reflexivity.
    unfold pypdf_page. by rewrite (Hall (a :: l)) by left.
  - induction reader_pages as [|page reader_pages IH]; intros annots Hin Hkept.
    + by apply elem_of_nil in Hin.
    + cbn [remove_watermark_pypdf]. apply elem_of_cons in Hin as [<-|Hin].
      * assert (pypdf_page U watermark_list (Some annots) = None) as ->; [|reflexivity].
        unfold pypdf_page. destruct annots as [|a l]; [done|].
        by destruct (pypdf_kept U watermark_list (a :: l)).
      * rewrite (IH annots Hin Hkept).
        by destruct (pypdf_page U watermark_list page).
  - intros written Hw. rewrite (pypdf_written _ _ _ _ Hw).
    apply pypdf_rewrites_what_it_wrote.
Qed.

Lemma pypdf_succeeds_only_when_nothing_is_kept_witness :
  remove_watermark_pypdf ascii_only [T "Draft"]
    [ None; Some [ {| annot_content := T "DRAFT copy"; annot_title := [] |} ] ]
  = Some [None; None]
  /\ remove_watermark_pypdf ascii_only [T "Draft"]
       [ Some [ {| annot_content := T "DRAFT copy"; annot_title := [] |};
                {| annot_content := T "note"; annot_title := T "reviewer" |} ] ]
     = None.
Proof.
  split.
  - apply (pypdf_succeeds_only_when_nothing_is_kept ascii_only [T "Draft"]
             [ None; Some [ {| annot_content := T "DRAFT copy"; annot_title := [] |} ] ]).
    intros annots Hin. apply elem_of_cons in Hin as [[=]|Hin].
    apply elem_of_cons in Hin as [[= ->]|Hin]; [reflexivity|].
    by apply elem_of_nil in Hin.
  - apply (proj1 (proj2 (pypdf_succeeds_only_when_nothing_is_kept ascii_only [T "Draft"]
             [ Some [ {| annot_content := T "DRAFT copy"; annot_title := [] |};
                      {| annot_content := T "note"; annot_title := T "reviewer" |} ] ]))
             [ {| annot_content := T "DRAFT copy"; annot_title := [] |};
               {| annot_content := T "note"; annot_title := T "reviewer" |} ]).
    + by left.
    + discriminate.
Defined.

(** X11.  Without needles the fallback keeps every annotation: it returns
    [True], with the pages as they were, when no page has an annotation,
    and [False], with nothing written, as soon as one page has one. *)
Theorem pypdf_without_needles_fails_on_annotations U reader_pages :
  (Forall (fun annots => annots = None \/ annots = Some []) reader_pages ->
   remove_watermark_pypdf U [] reader_pages = Some reader_pages)
  /\ (forall a annots, Some (a :: annots) ∈ reader_pages ->
        remove_watermark_pypdf U [] reader_pages = None).
Proof.
  split.
  - induction 1 as [|annots reader_pages Ha _ IH]; [reflexivity|].
    cbn [remove_watermark_pypdf]. rewrite IH.
    by destruct Ha as [-> | ->].
  - induction reader_pages as [|page reader_pages IH]; intros a annots Hin.
    + by apply elem_of_nil in Hin.
    + cbn [remove_watermark_pypdf]. apply elem_of_cons in Hin as [<-|Hin].
      * unfold pypdf_page, pypdf_kept. rewrite filter_all. reflexivity.
      * rewrite (IH a annots Hin). by destruct (pypdf_page U [] page).
Qed.

Lemma pypdf_without_needles_fails_on_annotations_witness :
  remove_watermark_pypdf ascii_only [] [None; Some []] = Some [None; Some []]
  /\ remove_watermark_pypdf ascii_only []
       [ None; Some [ {| annot_content := T "note"; annot_title := T "reviewer" |} ] ]
     = None.
Proof.
  split.
  - apply (pypdf_without_needles_fails_on_annotations ascii_only [None; Some []]).
    constructor; [by left|]. constructor; [by right|]. constructor.
  - apply (proj2 (pypdf_without_needles_fails_on_annotations ascii_only
             [ None; Some [ {| annot_content := T "note"; annot_title := T "reviewer" |} ] ])
             {| annot_content := T "note"; annot_title := T "reviewer" |} []).
    right. left.
Defined.

(** ** Detection *)

Lemma foldl_pages_lines {A B C} (f : A -> B -> A) (g : C -> list B) (d : A) (pages : list C) :
  foldl (fun d page => foldl f d (g page)) d pages = foldl f d (concat (map g pages)).
Proof.
  revert d. induction pages as [|page pages IH]; intros d; [reflexivity|].
  simpl. by rewrite IH, foldl_app.
Qed.

Lemma count_of_bump k k' d :
  count_of k (bump k' d)
  = (count_of k d + if bool_decide (k' = k) then 1 else 0)%nat.
Proof.
  induction d as [|[k0 n] d IH]; simpl.
  - destruct (bool_decide (k' = k)); reflexivity.
  - destruct (decide (k0 = k')) as [->|Hne].
    + rewrite (bool_decide_eq_true_2 (k' = k')) by done. simpl.
      destruct (bool_decide (k' = k)); lia.
    + rewrite (bool_decide_eq_false_2 (k0 = k')) by done. simpl.
      destruct (decide (k0 = k)) as [->|Hne'].
      * rewrite (bool_decide_eq_true_2 (k = k)) by done.
        rewrite (bool_decide_eq_false_2 (k' = k)) by congruence. lia.
      * rewrite (bool_decide_eq_false_2 (k0 = k)) by done. exact IH.
Qed.

Lemma count_of_counted k lines d :
  count_of k (foldl count_line d lines)
  = (count_of k d + occurrences k (counted lines))%nat.
Proof.
  revert d. unfold occurrences, counted.
  induction lines as [|l lines IH]; intros d; simpl; [lia|].
  rewrite IH. unfold count_line.
  destruct (3 <? length l)%nat; simpl; [|reflexivity].
  rewrite count_of_bump. destruct (bool_decide (l = k)); simpl; lia.
Qed.

Lemma bump_keys k d x :
  In x (map fst (bump k d)) -> x = k \/ In x (map fst d).
Proof.
  induction d as [|[k0 n] d IH]; simpl.
  - intros [<-|[]]. by left.
  - case_bool_decide as E; simpl; [tauto|].
    intros [<-|H]; [tauto|]. destruct (IH H); tauto.
Qed.

Lemma bump_keeps_NoDup k d : List.NoDup (map fst d) -> List.NoDup (map fst (bump k d)).
Proof.
  induction d as [|[k0 n] d IH]; simpl; intros H.
  - repeat constructor. intros [].
  - inversion H as [|? ? Hk0 Hnd]; subst.
    case_bool_decide as E; simpl; [by constructor|].
    constructor; [|by apply IH].
    intros Hin. apply bump_keys in Hin as [->|Hin]; [done | by apply Hk0].
Qed.

Lemma count_line_keeps_NoDup lines d :
  List.NoDup (map fst d) -> List.NoDup (map fst (foldl count_line d lines)).
Proof.
  revert d. induction lines as [|l lines IH]; intros d H; [done|].
  simpl. apply IH. unfold count_line.
  destruct (3 <? length l)%nat; [by apply bump_keeps_NoDup | done].
Qed.

Lemma count_of_entry k n d :
  List.NoDup (map fst d) -> In (k, n) d -> count_of k d = n.
Proof.
  induction d as [|[k0 n0] d IH]; intros Hnd Hin; [destruct Hin|].
  simpl in *. inversion Hnd as [|? ? Hk0 Hnd']; subst.
  destruct Hin as [[= -> ->]|Hin].
  - by rewrite bool_decide_eq_true_2.
  - rewrite bool_decide_eq_false_2; [by apply IH|].
    intros ->. apply Hk0. apply in_map_iff. by exists (k, n).
Qed.

Lemma entry_of_count k d : count_of k d <> 0%nat -> In (k, count_of k d) d.
Proof.
  induction d as [|[k0 n0] d IH]; simpl; [done|].
  case_bool_decide as E; [subst; by left|]. intros H. right. by apply IH.
Qed.

Lemma max_item_fold (x : text * nat) d :
  let best := foldl (fun best y => if (best.2 <? y.2)%nat then y else best) x d in
  In best (x :: d) /\ (x.2 <= best.2)%nat /\ Forall (fun y => (y.2 <= best.2)%nat) d.
Proof.
  revert x. induction d as [|y d IH]; intros x; simpl.
  - split; [by left|]. split; [lia | constructor].
  - destruct (Nat.ltb_spec x.2 y.2) as [Hlt|Hge].
    + destruct (IH y) as (Hin & Hle & Hall). simpl in Hin.
      split; [tauto|]. split; [lia|]. by constructor.
    + destruct (IH x) as (Hin & Hle & Hall). simpl in Hin.
      split; [tauto|]. split; [lia|]. constructor; [lia | done].
Qed.

Lemma max_item_greatest d x :
  max_item d = Some x -> In x d /\ Forall (fun y => (y.2 <= x.2)%nat) d.
Proof.
  destruct d as [|x0 d]; [discriminate|]. simpl. intros [= <-].
  destruct (max_item_fold x0 d) as (Hin & Hle & Hall).
  split; [done|]. by constructor.
Qed.

Lemma occurrences_counted k lines :
  (3 < length k)%nat -> occurrences k (counted lines) = occurrences k lines.
Proof.
  intros Hk. unfold occurrences, counted.
  induction lines as [|l lines IH]; [reflexivity|]. simpl.
  destruct (3 <? length l)%nat eqn:E; simpl.
  - destruct (bool_decide (l = k)); simpl; by rewrite IH.
  - rewrite bool_decide_eq_false_2; [exact IH|].
    intros ->. apply Nat.ltb_ge in E. lia.
Qed.

Lemma occurrences_In k lines : occurrences k lines <> 0%nat -> In k lines.
Proof.
  unfold occurrences. induction lines as [|l lines IH]; simpl; [done|].
  case_bool_decide as E; [by left|]. intros H. right. by apply IH.
Qed.

Lemma detect_table U sample_pages page pages :
  detect_watermark_text U sample_pages (page :: pages)
  = most_common_line (Nat.min sample_pages (length (page :: pages)))
      (foldl count_line [] (checked_lines U sample_pages (page :: pages))).
Proof.
  unfold detect_watermark_text, checked_lines. by rewrite foldl_pages_lines.
Qed.

(** X13.  A line that the detection returns is a line of the pages it
    read, longer than three characters; its occurrences there, times ten,
    reach seven times the number of pages read; and no line longer than
    three characters occurs there more often.  The occurrences are counted
    line by line, not page by page. *)
Theorem detected_line_is_most_frequent U sample_pages (doc : list TextDict) t :
  detect_watermark_text U sample_pages doc = Some t ->
  let lines := checked_lines U sample_pages doc in
  (3 < length t)%nat
  /\ In t lines
  /\ (7 * Nat.min sample_pages (length doc) <= 10 * occurrences t lines)%nat
  /\ forall l, (3 < length l)%nat -> (occurrences l lines <= occurrences t lines)%nat.
Proof.
  destruct doc as [|page pages]; [discriminate|].
  rewrite detect_table. intros H lines. fold lines in H.
  unfold most_common_line in H.
  destruct (max_item _) as [[k n]|] eqn:Hmax; [|discriminate].
  destruct (Nat.leb_spec (7 * Nat.min sample_pages (length (page :: pages)))
              (10 * (k, n).2)) as [Hle|]; [|discriminate].
  injection H as ->. cbn [snd] in Hle.
  destruct (max_item_greatest _ _ Hmax) as [Hin Hall].
  assert (List.NoDup (map fst (foldl count_line [] lines))) as Hnd
    by (apply count_line_keeps_NoDup; constructor).
  pose proof (count_of_entry _ _ _ Hnd Hin) as Hn.
  rewrite count_of_counted in Hn. simpl in Hn.
  assert (forall l, (count_of l (foldl count_line [] lines) <= n)%nat) as Hmost.
  { intros l. destruct (decide (count_of l (foldl count_line [] lines) = 0%nat))
      as [->|Hl]; [lia|].
    apply entry_of_count in Hl. rewrite Forall_forall in Hall.
    apply list_elem_of_In, Hall in Hl. exact Hl. }
  assert (In t (counted lines)) as Ht.
  { apply occurrences_In. rewrite Hn.
    destruct n; [|done]. exfalso.
    destruct (Nat.min sample_pages (length (page :: pages))) eqn:Emin; [|lia].
    unfold lines, checked_lines in Hin. rewrite Emin in Hin. destruct Hin. }
  unfold counted in Ht. apply filter_In in Ht as [Ht Hlen].
  apply Nat.ltb_lt in Hlen.
  rewrite occurrences_counted in Hn by done.
  split; [done|]. split; [done|]. split; [lia|].
  intros l Hl. specialize (Hmost l). rewrite count_of_counted in Hmost.
  simpl in Hmost. rewrite occurrences_counted in Hmost by done. lia.
Qed.

Lemma detected_line_is_most_frequent_witness :
  (3 < length (T "DRAFT"))%nat
  /\ In (T "DRAFT")
        (checked_lines ascii_only 3
           [ [Some [[T " DRAFT "]; [T "Chapter"; T " 1"]]]; [Some [[T "DRAFT"]]; None] ])
  /\ (7 * Nat.min 3 (length [ [Some [[T " DRAFT "]; [T "Chapter"; T " 1"]]];
                              [Some [[T "DRAFT"]]; @None (list TextLine)] ])
      <= 10 * occurrences (T "DRAFT")
                (checked_lines ascii_only 3
                   [ [Some [[T " DRAFT "]; [T "Chapter"; T " 1"]]];
                     [Some [[T "DRAFT"]]; None] ]))%nat
  /\ forall l, (3 < length l)%nat ->
       (occurrences l
          (checked_lines ascii_only 3
             [ [Some [[T " DRAFT "]; [T "Chapter"; T " 1"]]]; [Some [[T "DRAFT"]]; None] ])
        <= occurrences (T "DRAFT")
             (checked_lines ascii_only 3
                [ [Some [[T " DRAFT "]; [T "Chapter"; T " 1"]]];
                  [Some [[T "DRAFT"]]; None] ]))%nat.
Proof.
  apply (detected_line_is_most_frequent ascii_only 3
           [ [Some [[T " DRAFT "]; [T "Chapter"; T " 1"]]]; [Some [[T "DRAFT"]]; None] ]
           (T "DRAFT")).
  vm_compute. reflexivity.
Defined.

(** X14.  The detection answers whenever it can: if some line longer than
    three characters occurs on the pages read, and its occurrences times
    ten reach seven times the number of pages read, a line is returned. *)
Theorem frequent_line_is_detected U sample_pages (doc : list TextDict) l :
  (3 < length l)%nat ->
  let lines := checked_lines U sample_pages doc in
  (1 <= occurrences l lines)%nat ->
  (7 * Nat.min sample_pages (length doc) <= 10 * occurrences l lines)%nat ->
  exists t, detect_watermark_text U sample_pages doc = Some t.
Proof.
  intros Hl lines Hocc Hle.
  destruct doc as [|page pages].
  { unfold lines, checked_lines, occurrences in Hocc. simpl in Hocc.
    rewrite take_nil in Hocc. simpl in Hocc. lia. }
  rewrite detect_table. fold lines. unfold most_common_line.
  assert (count_of l (foldl count_line [] lines) = occurrences l lines) as Hc.
  { rewrite count_of_counted. simpl. by apply occurrences_counted. }
  assert (In (l, occurrences l lines) (foldl count_line [] lines)) as Hin.
  { rewrite <- Hc. apply entry_of_count. lia. }
  destruct (max_item (foldl count_line [] lines)) as [[k n]|] eqn:Hmax.
  - destruct (max_item_greatest _ _ Hmax) as [_ Hall].
    rewrite Forall_forall in Hall. apply list_elem_of_In, Hall in Hin.
    cbn [snd] in Hin |- *.
    destruct (Nat.leb_spec (7 * Nat.min sample_pages (length (page :: pages)))
                (10 * n)) as [_|Hlt]; [by exists k | lia].
  - destruct (foldl count_line [] lines); [destruct Hin | discriminate].
Qed.

Lemma frequent_line_is_detected_witness :
  exists t,
    detect_watermark_text ascii_only 3
      [ [Some [[T "Invoice 2024"]; [T "Total"]]] ] = Some t.
Proof.
  apply (frequent_line_is_detected ascii_only 3
           [ [Some [[T "Invoice 2024"]; [T "Total"]]] ] (T "Total"));
    vm_compute; lia.
Defined.

(** X15.  The detection reads the first [sample_pages] pages only: pages
    behind them do not change its answer. *)
Theorem detection_reads_first_pages_only U sample_pages (doc more : list TextDict) :
  (sample_pages <= length doc)%nat ->
  detect_watermark_text U sample_pages (doc ++ more)
  = detect_watermark_text U sample_pages doc.
Proof.
  intros Hs. destruct doc as [|page pages].
  - simpl in Hs. replace sample_pages with 0%nat by lia.
    destruct more as [|m more]; [reflexivity|].
    rewrite app_nil_l, detect_table. reflexivity.
  - rewrite <- app_comm_cons, !detect_table. unfold checked_lines.
    rewrite app_comm_cons, length_app.
    rewrite !Nat.min_l by lia. by rewrite take_app_le.
Qed.

Lemma detection_reads_first_pages_only_witness :
  detect_watermark_text ascii_only 1
    ([ [Some [[T "DRAFT"]]] ] ++ [ [Some [[T "Final"]; [T "Final"]]] ])
  = detect_watermark_text ascii_only 1 [ [Some [[T "DRAFT"]]] ].
Proof.
  apply (detection_reads_first_pages_only ascii_only 1
           [ [Some [[T "DRAFT"]]] ] [ [Some [[T "Final"]; [T "Final"]]] ]).
  simpl. lia.
Defined.

Lemma count_line_counted lines d :
  foldl count_line d lines = foldl count_line d (counted lines).
Proof.
  revert d. unfold counted.
  induction lines as [|l lines IH]; intros d; [reflexivity|]. simpl.
  unfold count_line at 2. destruct (3 <? length l)%nat eqn:E; simpl.
  - rewrite IH. unfold count_line at 3. by rewrite E.
  - apply IH.
Qed.

Lemma bump_fresh k d : ~ In k (map fst d) -> bump k d = d ++ [(k, 1%nat)].
Proof.
  induction d as [|[k0 n] d IH]; simpl; intros H; [reflexivity|].
  rewrite bool_decide_eq_false_2 by tauto. rewrite IH by tauto. reflexivity.
Qed.

Lemma count_line_fresh keys d :
  List.NoDup keys ->
  Forall (fun k => (3 < length k)%nat /\ ~ In k (map fst d)) keys ->
  foldl count_line d keys = d ++ map (fun k => (k, 1%nat)) keys.
Proof.
  revert d. induction keys as [|k keys IH]; intros d Hnd Hk; simpl.
  - by rewrite app_nil_r.
  - inversion Hnd as [|? ? Hnk Hnd']; subst.
    inversion Hk as [|? ? [Hlen Hfresh] Hk']; subst.
    unfold count_line at 2. apply Nat.ltb_lt in Hlen. rewrite Hlen.
    rewrite bump_fresh by done. rewrite IH; [by rewrite <- app_assoc | done |].
    rewrite Forall_forall in Hk'. apply Forall_forall. intros x Hx.
    destruct (Hk' x Hx) as [Hxl Hxd]. split; [done|].
    rewrite map_app, in_app_iff. simpl. intros [?|[<-|[]]]; [done|].
    by apply list_elem_of_In in Hx.
Qed.

Lemma max_item_all_once (k0 : text) (n : nat) keys :
  foldl (fun best y : text * nat => if (best.2 <? y.2)%nat then y else best) (k0, n)
        (map (fun k : text => (k, n)) keys) = (k0, n).
Proof.
  induction keys as [|k keys IH]; [reflexivity|]. cbn [map foldl snd].
  by rewrite Nat.ltb_irrefl.
Qed.

(** X16.  On a document of which one page is read and on which no line
    longer than three characters is repeated, the first such line of the
    page is returned as the watermark. *)
Theorem first_line_of_single_page_is_detected U sample_pages (page : TextDict) t rest :
  (1 <= sample_pages)%nat ->
  counted (dict_lines U page) = t :: rest ->
  List.NoDup (t :: rest) ->
  detect_watermark_text U sample_pages [page] = Some t.
Proof.
  intros Hs Hlines Hnd. rewrite detect_table. unfold checked_lines.
  replace (Nat.min sample_pages (length [page])) with 1%nat by (simpl; lia).
  cbn [take map concat]. rewrite app_nil_r.
  rewrite count_line_counted, Hlines.
  rewrite count_line_fresh; [|done|].
  - cbn [app map]. unfold most_common_line, max_item.
    rewrite (max_item_all_once t 1%nat rest). reflexivity.
  - assert (Forall (fun l => (3 < length l)%nat) (t :: rest)) as Hall.
    { rewrite <- Hlines. unfold counted. apply Forall_forall. intros l Hl.
      apply list_elem_of_In, filter_In in Hl as [_ Hl]. by apply Nat.ltb_lt. }
    eapply Forall_impl; [exact Hall|]. intros l Hl. split; [done | intros []].
Qed.

Lemma first_line_of_single_page_is_detected_witness :
  detect_watermark_text ascii_only 3
    [ [Some [[T "1."]; [T "Annual "; T "report"]; [T "Contents"]]] ]
  = Some (T "Annual report").
Proof.
  apply (first_line_of_single_page_is_detected ascii_only 3
           [Some [[T "1."]; [T "Annual "; T "report"]; [T "Contents"]]]
           (T "Annual report") [T "Contents"]).
  - lia.
  - vm_compute. reflexivity.
  - constructor; [simpl; intros [H|[]]; discriminate|].
    constructor; [intros [] | constructor].
Defined.

(** ** [main] *)

Lemma detect_nothing_counted U sample_pages (doc : list TextDict) :
  counted (checked_lines U sample_pages doc) = [] ->
  detect_watermark_text U sample_pages doc = None.
Proof.
  intros H. destruct doc as [|page pages]; [reflexivity|].
  by rewrite detect_table, count_line_counted, H.
Qed.

(** X17.  Started without [--remove-string] on a file whose first three
    pages have no line longer than three characters, [main] removes
    nothing: no watermark is detected, the needle list stays empty, and the
    document comes out as it went in, with no annotation deleted and no
    stream updated. *)
Theorem main_without_needles_is_pass_through U F (remove_string : option (list text))
    (dicts : list TextDict) (d : Doc) :
  remove_string = None \/ remove_string = Some [] ->
  counted (checked_lines U 3 dicts) = [] ->
  main_pymupdf U F remove_string dicts d = {| doc := d; log := [] |}.
Proof.
  intros Hrs Hc. unfold main_pymupdf.
  assert (main_watermark_strings remove_string
            match remove_string with
            | Some (_ :: _) => None
            | _ => detect_watermark_text U 3 dicts
            end = []) as ->.
  { rewrite (detect_nothing_counted U 3 dicts Hc). by destruct Hrs as [->| ->]. }
  unfold remove_watermark_pymupdf. apply skipped_pages_leave_state. by left.
Qed.

Lemma main_without_needles_is_pass_through_witness :
  main_pymupdf ascii_only (plain_fitz ascii_only) None
    [ [Some [[T "p.1"]; [T " a "]]; None] ] (one_page_doc (B "BT (p.1) Tj ET"))
  = {| doc := one_page_doc (B "BT (p.1) Tj ET"); log := [] |}.
Proof.
  apply (main_without_needles_is_pass_through ascii_only (plain_fitz ascii_only) None
           [ [Some [[T "p.1"]; [T " a "]]; None] ] (one_page_doc (B "BT (p.1) Tj ET"))).
  - by left.
  - vm_compute. reflexivity.
Defined.

(** ** The two branches of the detection *)

(** X18.  The two branches of [detect_watermark_text] differ in nothing
    but the way they get the lines of a page: given the same lines, page
    by page, the branch for pdfplumber returns what the branch for PyMuPDF
    returns. *)
Theorem detection_branches_agree U sample_pages (doc : list TextDict)
    (pdf : list (option text)) :
  map (plumber_lines U) pdf = map (dict_lines U) doc ->
  detect_watermark_text_pdfplumber U sample_pages pdf
  = detect_watermark_text U sample_pages doc.
Proof.
  intros H.
  assert (length pdf = length doc) as Hlen
    by (by rewrite <- (length_map (plumber_lines U)), H, length_map).
  destruct pdf as [|t pdf], doc as [|page doc]; try discriminate; [reflexivity|].
  unfold detect_watermark_text_pdfplumber, detect_watermark_text.
  rewrite !foldl_pages_lines, Hlen.
  rewrite <- !firstn_map. by rewrite H.
Qed.

Lemma detection_branches_agree_witness :
  detect_watermark_text_pdfplumber ascii_only 3
    [Some (T " DRAFT " ++ 10 :: T "Page one"); None]
  = detect_watermark_text ascii_only 3
      [ [Some [[T "DRAFT"]]; None; Some [[T "Page "; T "one "]]]; [] ].
Proof.
  apply (detection_branches_agree ascii_only 3
           [ [Some [[T "DRAFT"]]; None; Some [[T "Page "; T "one "]]]; [] ]
           [Some (T " DRAFT " ++ 10 :: T "Page one"); None]).
  vm_compute. reflexivity.
Defined.

(** ** Needles and case *)

Section Case.
Context (U : Unicode) (F : Fitz) (wl wl' : list text).
Hypothesis same_lowers : watermark_lowers U wl = watermark_lowers U wl'.
Hypothesis same_instances :
  forall d page_num, count_instances F wl d page_num = count_instances F wl' d page_num.

Lemma same_emptiness : match wl, wl' with [], _ :: _ | _ :: _, [] => False | _, _ => True end.
Proof. by destruct wl, wl'. Qed.

Lemma process_page_same_lowers st page_num :
  process_page U F wl st page_num = process_page U F wl' st page_num.
Proof.
  pose proof same_emptiness as He.
  unfold process_page, page_has_watermark, delete_annots, annot_has_watermark,
    form_step, process_form_xobject.
  cbv zeta.
  destruct wl as [|w ws], wl' as [|w' ws']; try done.
  rewrite same_lowers.
  destruct (negb _); [reflexivity|].
  destruct (clean_contents F _ page_num) as [d|]; [|reflexivity].
  cbn [doc set_doc]. by rewrite same_instances.
Qed.

Lemma run_same_lowers page_nums st :
  foldl (process_page U F wl) st page_nums = foldl (process_page U F wl') st page_nums.
Proof.
  revert st. induction page_nums as [|p ps IH]; intros st; [reflexivity|].
  simpl. by rewrite process_page_same_lowers, IH.
Qed.

End Case.

(** X19.  Needles are compared without regard to case: two needle lists
    that are the same once lowercased give the same run, provided the
    search of PyMuPDF (which does not look at case either) finds as many
    instances for the one as for the other. *)
Theorem needles_are_case_insensitive U F (wl wl' : list text) (d : Doc) :
  watermark_lowers U wl = watermark_lowers U wl' ->
  (forall d page_num, count_instances F wl d page_num = count_instances F wl' d page_num) ->
  remove_watermark_pymupdf U F wl d = remove_watermark_pymupdf U F wl' d.
Proof.
  intros Hl Hc. unfold remove_watermark_pymupdf. by apply run_same_lowers.
Qed.

Lemma needles_are_case_insensitive_witness :
  remove_watermark_pymupdf ascii_only (plain_fitz ascii_only) [T "Draft"]
    (one_page_doc two_runs_stream)
  = remove_watermark_pymupdf ascii_only (plain_fitz ascii_only) [T "DRAFT"]
      (one_page_doc two_runs_stream).
Proof.
  apply (needles_are_case_insensitive ascii_only (plain_fitz ascii_only)
           [T "Draft"] [T "DRAFT"] (one_page_doc two_runs_stream)).
  - reflexivity.
  - intros d page_num. reflexivity.
Defined.

(** ** Text objects without strings *)

Lemma any_in_nothing wl : Forall (fun w => w <> []) wl -> any_in wl [] = false.
Proof.
  unfold any_in. induction 1 as [|w wl Hw _ IH]; [reflexivity|].
  cbn [existsb]. rewrite IH. by destruct w.
Qed.

(** X20.  A block without an opening parenthesis and without [<] holds no
    text for the script: unless the empty string is among the needles, a
    text object that only sets state is kept. *)
Theorem text_object_without_strings_is_kept U wl (block : text) :
  Forall (fun c => c <> LPAREN /\ c <> LT) block ->
  Forall (fun w => w <> []) wl ->
  should_remove_text_object U wl block = false.
Proof.
  intros Hb Hw.
  unfold should_remove_text_object, extract_all_text_from_stream, all_text, hex_texts.
  rewrite <- (app_nil_r block) at 1.
  rewrite literal_strings_gap by (by apply Forall_and_l in Hb).
  rewrite hex_matches_none by (by apply Forall_and_r in Hb).
  by apply any_in_nothing.
Qed.

Lemma text_object_without_strings_is_kept_witness :
  should_remove_text_object ascii_only [T "tf"; T "12"] (T " /F1 12 Tf 1 0 0 1 72 720 Tm ")
  = false.
Proof.
  apply (text_object_without_strings_is_kept ascii_only [T "tf"; T "12"]
           (T " /F1 12 Tf 1 0 0 1 72 720 Tm ")).
  - repeat constructor; discriminate.
  - repeat constructor; discriminate.
Defined.
